(** * PoetryGenerator: the corpus cleaning pipeline of
      [untrained/data/combine_and_clean_v2.py]

    The script runs three streaming stages over text files:
    [combine_files_streaming] (concatenate sources, deleting them),
    [clean_text_streaming] (character sanitizer, chunk by chunk) and
    [process_lines_streaming] (line filter and exact deduplication).

    Python strings are sequences of Unicode code points; they are
    embedded as lists of code points ([N]).  The functions below follow
    the Python source statement by statement; the names of the source
    are kept.  The definitions come first, the facts proved about them
    after. *)

From Stdlib Require Import NArith ZArith String Ascii List Lia Uint63 PrimFloat.
From stdpp Require Import base numbers list option gmap sets.

Set Warnings "-register-all".
Local Open Scope N_scope.

(** ** Python text *)

Abbreviation pystr := (list N).

(** A string literal of the development, as code points (ASCII only). *)
Definition str (s : string) : pystr :=
  map N_of_ascii (list_ascii_of_string s).
Arguments str s%_string.

Definition LF : N := 10.
Definition SP : N := 32.

(** [Py_UNICODE_ISSPACE]: the code points that [str.strip], [str.split]
    and the regular-expression class [\s] treat as whitespace. *)
Definition is_space (c : N) : bool :=
  ((9 <=? c) && (c <=? 13)) || ((28 <=? c) && (c <=? 32))
  || (c =? 133) || (c =? 160) || (c =? 5760)
  || ((8192 <=? c) && (c <=? 8202))
  || (c =? 8232) || (c =? 8233) || (c =? 8239) || (c =? 8287)
  || (c =? 12288).

Definition is_ascii (c : N) : bool := c <? 128.
Definition is_upper_az (c : N) : bool := (65 <=? c) && (c <=? 90).
Definition is_lower_az (c : N) : bool := (97 <=? c) && (c <=? 122).
Definition is_letter_az (c : N) : bool := is_lower_az c || is_upper_az c.
Definition is_digit (c : N) : bool := (48 <=? c) && (c <=? 57).

(** Truthiness of a string: [if s:] holds for non-empty strings. *)
Definition truthy (s : pystr) : bool :=
  match s with [] => false | _ :: _ => true end.

Definition pystr_eqb (a b : pystr) : bool := bool_decide (a = b).

(** [s.startswith(p)] *)
Fixpoint starts_with (p s : pystr) : bool :=
  match p, s with
  | [], _ => true
  | _ :: _, [] => false
  | a :: p', b :: s' => (a =? b) && starts_with p' s'
  end.

(** [sep.join(parts)] *)
Fixpoint join (sep : pystr) (parts : list pystr) : pystr :=
  match parts with
  | [] => []
  | [p] => p
  | p :: ps => p ++ sep ++ join sep ps
  end.

(** [s.split(sep)] for a one-character separator: always at least one
    field, empty fields are kept. *)
Fixpoint split_on (sep : N) (s : pystr) : list pystr :=
  match s with
  | [] => [[]]
  | c :: rest =>
      if c =? sep then [] :: split_on sep rest
      else match split_on sep rest with
           | field :: fields => (c :: field) :: fields
           | [] => [[c]]
           end
  end.

(** [s.split()]: the maximal runs of non-whitespace characters. *)
Fixpoint split (s : pystr) : list pystr :=
  match s with
  | [] => []
  | c :: rest =>
      if is_space c then split rest
      else match rest with
           | [] => [[c]]
           | d :: _ =>
               if is_space d then [c] :: split rest
               else match split rest with
                    | w :: ws => (c :: w) :: ws
                    | [] => [[c]]
                    end
           end
  end.

Fixpoint lstrip (s : pystr) : pystr :=
  match s with
  | [] => []
  | c :: rest => if is_space c then lstrip rest else s
  end.

Definition rstrip (s : pystr) : pystr := rev (lstrip (rev s)).

(** [s.strip()] *)
Definition strip (s : pystr) : pystr := rstrip (lstrip s).

(** [len(s.encode('utf-8'))]; encoding raises [UnicodeEncodeError] on a
    surrogate code point ([None]).  Code points above U+10FFFF do not
    occur in a Python string. *)
Definition utf8_width (c : N) : option nat :=
  if c <? 128 then Some 1%nat
  else if c <? 2048 then Some 2%nat
  else if (55296 <=? c) && (c <=? 57343) then None
  else if c <? 65536 then Some 3%nat
  else if c <? 1114112 then Some 4%nat
  else None.

Fixpoint utf8_len (s : pystr) : option nat :=
  match s with
  | [] => Some 0%nat
  | c :: rest =>
      match utf8_width c, utf8_len rest with
      | Some w, Some n => Some (w + n)%nat
      | _, _ => None
      end
  end.

(** [needle in s] for strings. *)
Fixpoint contains (needle s : pystr) : bool :=
  starts_with needle s
  || match s with
     | [] => false
     | _ :: rest => contains needle rest
     end.

(** ** JSON values, as [json.load] builds them *)

Inductive json :=
| JNull
| JBool (b : bool)
| JNumber (literal : pystr)
| JString (s : pystr)
| JArray (items : list json)
| JObject (members : list (pystr * json)).

(** [key in d] and [d[key]] on a dictionary built from the members of a
    JSON object in document order: a later member overrides an earlier
    one of the same key. *)
Fixpoint dict_get (key : pystr) (members : list (pystr * json))
    : option json :=
  match members with
  | [] => None
  | (k, v) :: rest =>
      match dict_get key rest with
      | Some v' => Some v'
      | None => if pystr_eqb k key then Some v else None
      end
  end.

(** *** A reader for JSON text

    [json.load] belongs to the Python library.  The reader below follows
    its scanner ([json.decoder], [json.scanner]) and is used to run the
    concrete scenarios on the text of a file. *)

Definition is_json_ws (c : N) : bool :=
  (c =? 32) || (c =? 9) || (c =? 10) || (c =? 13).

Fixpoint skip_ws (s : pystr) : pystr :=
  match s with
  | [] => []
  | c :: rest => if is_json_ws c then skip_ws rest else s
  end.

Definition hex_digit (c : N) : option N :=
  if is_digit c then Some (c - 48)
  else if (97 <=? c) && (c <=? 102) then Some (c - 87)
  else if (65 <=? c) && (c <=? 70) then Some (c - 55)
  else None.

Definition hex4 (s : pystr) : option (N * pystr) :=
  match s with
  | a :: b :: c :: d :: rest =>
      match hex_digit a, hex_digit b, hex_digit c, hex_digit d with
      | Some a, Some b, Some c, Some d =>
          Some (((a * 16 + b) * 16 + c) * 16 + d, rest)
      | _, _, _, _ => None
      end
  | _ => None
  end.

Definition unescape (c : N) : option N :=
  if c =? 34 then Some 34 else if c =? 92 then Some 92
  else if c =? 47 then Some 47 else if c =? 98 then Some 8
  else if c =? 102 then Some 12 else if c =? 110 then Some 10
  else if c =? 114 then Some 13 else if c =? 116 then Some 9
  else None.

(** The characters of a string literal, from just after its opening
    quote; returns the decoded string and the text after the closing
    quote. *)
Fixpoint scan_string (fuel : nat) (s : pystr) : option (pystr * pystr) :=
  match fuel with
  | O => None
  | S fuel' =>
      match s with
      | [] => None
      | c :: rest =>
          if c =? 34 then Some ([], rest)
          else if c =? 92 then
            match rest with
            | [] => None
            | e :: rest' =>
                if e =? 117 then
                  match hex4 rest' with
                  | None => None
                  | Some (u, after) =>
                      let paired :=
                        if (55296 <=? u) && (u <=? 56319) then
                          match after with
                          | b :: v :: after' =>
                              if (b =? 92) && (v =? 117) then
                                match hex4 after' with
                                | Some (lo, after'') =>
                                    if (56320 <=? lo) && (lo <=? 57343)
                                    then Some (65536 + (u - 55296) * 1024
                                               + (lo - 56320), after'')
                                    else None
                                | None => None
                                end
                              else None
                          | _ => None
                          end
                        else None in
                      let '(cp, next) := default (u, after) paired in
                      match scan_string fuel' next with
                      | Some (t, out) => Some (cp :: t, out)
                      | None => None
                      end
                  end
                else
                  match unescape e, scan_string fuel' rest' with
                  | Some ch, Some (t, out) => Some (ch :: t, out)
                  | _, _ => None
                  end
            end
          else if c <? 32 then None
          else match scan_string fuel' rest with
               | Some (t, out) => Some (c :: t, out)
               | None => None
               end
      end
  end.

Fixpoint span_digits (s : pystr) : pystr * pystr :=
  match s with
  | c :: rest =>
      if is_digit c then let '(ds, out) := span_digits rest in (c :: ds, out)
      else ([], s)
  | [] => ([], [])
  end.

(** A number literal: an optional minus sign, an integer part without
    leading zeros, an optional fraction and an optional exponent. *)
Definition scan_number (s : pystr) : option (pystr * pystr) :=
  let '(sign, s1) :=
    match s with
    | c :: rest => if c =? 45 then ([c], rest) else ([], s)
    | [] => ([], s)
    end in
  let int_part :=
    match s1 with
    | c :: rest =>
        if c =? 48 then Some ([c], rest)
        else if is_digit c then
          let '(ds, out) := span_digits rest in Some (c :: ds, out)
        else None
    | [] => None
    end in
  match int_part with
  | None => None
  | Some (ip, s2) =>
      let '(frac, s3) :=
        match s2 with
        | c :: rest =>
            if c =? 46 then
              match span_digits rest with
              | ([], _) => ([], s2)
              | (ds, out) => (c :: ds, out)
              end
            else ([], s2)
        | [] => ([], s2)
        end in
      let '(exp, s4) :=
        match s3 with
        | c :: rest =>
            if (c =? 101) || (c =? 69) then
              let '(sg, rest') :=
                match rest with
                | g :: r => if (g =? 45) || (g =? 43) then ([g], r)
                            else ([], rest)
                | [] => ([], rest)
                end in
              match span_digits rest' with
              | ([], _) => ([], s3)
              | (ds, out) => (c :: sg ++ ds, out)
              end
            else ([], s3)
        | [] => ([], s3)
        end in
      Some (sign ++ ip ++ frac ++ exp, s4)
  end.

Definition scan_literal (word : string) (v : json) (s : pystr)
    : option (json * pystr) :=
  if starts_with (str word) s then Some (v, drop (length (str word)) s)
  else None.

(** [scan_once], [JSONObject] and [JSONArray] of the library. *)
Fixpoint scan_once (fuel : nat) (s : pystr) : option (json * pystr) :=
  match fuel with
  | O => None
  | S fuel' =>
      match s with
      | [] => None
      | c :: rest =>
          if c =? 34 then
            match scan_string (length s) rest with
            | Some (t, out) => Some (JString t, out)
            | None => None
            end
          else if c =? 123 then
            match skip_ws rest with
            | d :: out =>
                if d =? 125 then Some (JObject [], out)
                else match scan_members fuel' (d :: out) with
                     | Some (ms, out') => Some (JObject ms, out')
                     | None => None
                     end
            | [] => None
            end
          else if c =? 91 then
            match skip_ws rest with
            | d :: out =>
                if d =? 93 then Some (JArray [], out)
                else match scan_items fuel' (d :: out) with
                     | Some (vs, out') => Some (JArray vs, out')
                     | None => None
                     end
            | [] => None
            end
          else if starts_with (str "null") s then scan_literal "null" JNull s
          else if starts_with (str "true") s
               then scan_literal "true" (JBool true) s
          else if starts_with (str "false") s
               then scan_literal "false" (JBool false) s
          else match scan_number s with
               | Some (lit, out) => Some (JNumber lit, out)
               | None =>
                   if starts_with (str "NaN") s
                   then scan_literal "NaN" (JNumber (str "NaN")) s
                   else if starts_with (str "Infinity") s
                   then scan_literal "Infinity" (JNumber (str "Infinity")) s
                   else scan_literal "-Infinity"
                          (JNumber (str "-Infinity")) s
               end
      end
  end
with scan_members (fuel : nat) (s : pystr)
    : option (list (pystr * json) * pystr) :=
  match fuel with
  | O => None
  | S fuel' =>
      match s with
      | q :: rest =>
          if q =? 34 then
            match scan_string (length s) rest with
            | Some (key, s1) =>
                match skip_ws s1 with
                | colon :: s2 =>
                    if colon =? 58 then
                      match scan_once fuel' (skip_ws s2) with
                      | Some (v, s3) =>
                          match skip_ws s3 with
                          | d :: s4 =>
                              if d =? 125 then Some ([(key, v)], s4)
                              else if d =? 44 then
                                match scan_members fuel' (skip_ws s4) with
                                | Some (ms, out) => Some ((key, v) :: ms, out)
                                | None => None
                                end
                              else None
                          | [] => None
                          end
                      | None => None
                      end
                    else None
                | [] => None
                end
            | None => None
            end
          else None
      | [] => None
      end
  end
with scan_items (fuel : nat) (s : pystr) : option (list json * pystr) :=
  match fuel with
  | O => None
  | S fuel' =>
      match scan_once fuel' s with
      | Some (v, s1) =>
          match skip_ws s1 with
          | d :: s2 =>
              if d =? 93 then Some ([v], s2)
              else if d =? 44 then
                match scan_items fuel' (skip_ws s2) with
                | Some (vs, out) => Some (v :: vs, out)
                | None => None
                end
              else None
          | [] => None
          end
      | None => None
      end
  end.

(** [json.loads(s)]: one value, surrounded by optional whitespace;
    [None] stands for [JSONDecodeError]. *)
Definition json_loads_text (s : pystr) : option json :=
  match scan_once (2 * length s + 2) (skip_ws s) with
  | Some (v, rest) =>
      match skip_ws rest with
      | [] => Some v
      | _ :: _ => None
      end
  | None => None
  end.

(** ** What the Python runtime supplies

    Three parts of the interpreter are not part of the repository: the
    Unicode alphanumeric property (behind [\b] and [\w]), the Unicode
    case mapping (behind [str.lower]) and the JSON reader ([json.load]).
    On ASCII the first two are fixed by the language; beyond ASCII they
    are parameters of the model, and so is the reader. *)
Record py_runtime := {
  unicode_isalnum : N → bool;
  unicode_lower : pystr → pystr;
  json_loads : pystr → option json
}.

Section Runtime.
Variable U : py_runtime.

(** [\w] of a [str] pattern. *)
Definition is_word (c : N) : bool :=
  if is_ascii c then is_letter_az c || is_digit c || (c =? 95)
  else unicode_isalnum U c.

Definition ascii_lower (c : N) : N :=
  if is_upper_az c then c + 32 else c.

(** [s.lower()] *)
Definition lower (s : pystr) : pystr :=
  if forallb is_ascii s then map ascii_lower s else unicode_lower U s.

(** ** Reading a file in chunks

    A file's content is the text its reader delivers: decoded, with line
    breaks translated to [\n].  Printing and progress reporting change
    neither the files nor the counters and are left out. *)

(** [chunk_size = 1024 * 1024] *)
Definition chunk_size : nat := 1024 * 1024.

(** [infile.read(n)] until it returns the empty string. *)
Fixpoint read_chunks (fuel n : nat) (s : pystr) : list pystr :=
  match fuel, s with
  | S fuel', _ :: _ => take n s :: read_chunks fuel' n (drop n s)
  | _, _ => []
  end.

Definition file_chunks (n : nat) (s : pystr) : list pystr :=
  read_chunks (length s) n s.

(** ** Text extractor and combiner *)

(** What [open], [read] and [unlink] find at a path.  The lists the
    combiner is given come from [rglob], which matches names and so
    also yields a directory whose name ends in [.txt] or [.json]. *)
Inductive file_data :=
| Directory                       (** [open] raises, [unlink] raises *)
| Unreadable                      (** [open] raises *)
| Undecodable (delivered : pystr) (** [read] returns [delivered] in
                                      all, then raises
                                      [UnicodeDecodeError] *)
| Text (content : pystr).

(** [PurePath.name]: the last component of the path. *)
Definition path_name (path : pystr) : pystr :=
  default [] (last (split_on 47 path)).

(** [s.rfind(c)] *)
Fixpoint rfind (c : N) (s : pystr) : option nat :=
  match s with
  | [] => None
  | x :: rest =>
      match rfind c rest with
      | Some i => Some (S i)
      | None => if x =? c then Some 0%nat else None
      end
  end.

(** [PurePath.suffix] *)
Definition suffix (path : pystr) : pystr :=
  let name := path_name path in
  match rfind 46 name with
  | Some i =>
      if (0 <? i)%nat && (i <? length name - 1)%nat then drop i name
      else []
  | None => []
  end.

(** The body of [try] in [extract_text_from_json], after
    [json.load]; [None] when an exception is raised. *)
Definition collect_texts (data : json) : option (list json) :=
  match data with
  | JObject members =>
      match dict_get (str "body") members with
      | Some (JArray body) =>
          Some (omap (λ line,
                        match line with
                        | JObject fields => dict_get (str "text") fields
                        | _ => None
                        end) body)
      | _ => Some []
      end
  | JArray items =>
      (* ['body' in data] compares with the elements; [data['body']]
         then raises [TypeError] *)
      if existsb (λ item, match item with
                          | JString t => pystr_eqb t (str "body")
                          | _ => false
                          end) items
      then None else Some []
  | JString t =>
      (* substring test; [data['body']] then raises [TypeError] *)
      if contains (str "body") t then None else Some []
  | JNull | JBool _ | JNumber _ => None
  end.

(** ['\n'.join(texts)] raises [TypeError] unless every item is a
    string. *)
Fixpoint join_texts (texts : list json) : option (list pystr) :=
  match texts with
  | [] => Some []
  | JString t :: rest =>
      match join_texts rest with
      | Some ts => Some (t :: ts)
      | None => None
      end
  | _ :: _ => None
  end.

Definition extract_text_from_json (file : option file_data) : pystr :=
  match file with
  | Some (Text content) =>
      match json_loads U content with
      | Some data =>
          match collect_texts data with
          | Some [] => []
          | Some texts =>
              match join_texts texts with
              | Some ts => join [LF] ts
              | None => []
              end
          | None => []
          end
      | None => []
      end
  | Some Directory | Some Unreadable | Some (Undecodable _) | None => []
  end.

Record combine_state := {
  disk : gmap pystr file_data;
  combined : pystr;          (** what has been written to [outfile] *)
  deleted_count : nat;
  total_bytes : nat
}.

(** A statement of the [try] body either completes or raises; the
    state it has reached is kept in both cases. *)
Inductive outcome :=
| Done (st : combine_state)
| Raised (st : combine_state).

Definition outcome_state (o : outcome) : combine_state :=
  match o with Done st | Raised st => st end.

(** [total_bytes += len(text.encode('utf-8')); outfile.write(text)] *)
Definition write_counted (o : outcome) (text : pystr) : outcome :=
  match o with
  | Raised _ => o
  | Done st =>
      match utf8_len text with
      | Some n =>
          Done {| disk := disk st; combined := combined st ++ text;
                  deleted_count := deleted_count st;
                  total_bytes := total_bytes st + n |}
      | None => Raised st
      end
  end.

(** [outfile.write('\n')] *)
Definition write_newline (o : outcome) : outcome :=
  match o with
  | Raised _ => o
  | Done st =>
      Done {| disk := disk st; combined := combined st ++ [LF];
              deleted_count := deleted_count st;
              total_bytes := total_bytes st |}
  end.

(** [file_path.unlink(); deleted_count += 1]; unlinking a path that
    does not exist, or that is a directory, raises: the path stays and
    is not counted. *)
Definition unlink_counted (path : pystr) (o : outcome) : outcome :=
  match o with
  | Raised _ => o
  | Done st =>
      match disk st !! path with
      | None | Some Directory => Raised st
      | Some (Unreadable | Undecodable _ | Text _) =>
          Done {| disk := delete path (disk st); combined := combined st;
                  deleted_count := S (deleted_count st);
                  total_bytes := total_bytes st |}
      end
  end.

Definition is_json_path (path : pystr) : bool :=
  pystr_eqb (lower (suffix path)) (str ".json").

(** The [try] body for one [file_path]. *)
Definition combine_try (st : combine_state) (file_path : pystr)
    : outcome :=
  let written :=
    if is_json_path file_path then
      let text := extract_text_from_json (disk st !! file_path) in
      if truthy text then write_newline (write_counted (Done st) text)
      else Done st
    else
      match disk st !! file_path with
      | None | Some Directory | Some Unreadable => Raised st
      | Some (Undecodable delivered) =>
          Raised (outcome_state
                    (foldl write_counted (Done st)
                           (file_chunks chunk_size delivered)))
      | Some (Text content) =>
          write_newline
            (foldl write_counted (Done st)
                   (file_chunks chunk_size content))
      end in
  unlink_counted file_path written.

(** One iteration of [for i, file_path in enumerate(files)]; the
    [except] clause prints a warning and continues. *)
Definition combine_step (st : combine_state) (file_path : pystr)
    : combine_state :=
  outcome_state (combine_try st file_path).

Definition combine_files_streaming (files : list pystr)
    (fs : gmap pystr file_data) : combine_state :=
  foldl combine_step
        {| disk := fs; combined := []; deleted_count := 0;
           total_bytes := 0 |}
        files.

(** ** Character sanitizer: [clean_text_streaming] *)

Definition metadata_patterns : list pystr := [str "gutenberg"].

(** [re.sub(r'\b(word)\b', '', s)] for a literal [word] made of word
    characters.  [prev] is the character before the current position,
    [skip] the number of characters of a match still to be consumed. *)
Fixpoint sub_bounded_word (word : pystr) (prev : option N) (skip : nat)
    (s : pystr) : pystr :=
  match s with
  | [] => []
  | c :: rest =>
      match skip with
      | S k => sub_bounded_word word (Some c) k rest
      | O =>
          let left_boundary :=
            match prev with None => true | Some p => negb (is_word p) end in
          let right_boundary :=
            match drop (length word) s with
            | [] => true
            | d :: _ => negb (is_word d)
            end in
          if left_boundary && starts_with word s && right_boundary
          then sub_bounded_word word (Some c) (length word - 1) rest
          else c :: sub_bounded_word word (Some c) 0 rest
      end
  end.

Definition remove_metadata (chunk : pystr) : pystr :=
  foldl (λ chunk pattern, sub_bounded_word pattern None 0 chunk)
        chunk metadata_patterns.

(** The class [a-zA-Z\s.,!?\n] of the second substitution. *)
Definition allowed_char (c : N) : bool :=
  is_letter_az c || is_space c
  || (c =? 46) || (c =? 44) || (c =? 33) || (c =? 63) || (c =? 10).

(** [re.sub(r'[^a-zA-Z\s.,!?\n]', '', chunk)] *)
Definition keep_allowed (chunk : pystr) : pystr :=
  List.filter allowed_char chunk.

(** The inner loop over [tokens]; [prev_token] is [None] at first. *)
Fixpoint dedup_loop (prev_token : option pystr) (tokens : list pystr)
    : list pystr :=
  match tokens with
  | [] => []
  | token :: tokens' =>
      let token_lower := lower token in
      let same :=
        match prev_token with
        | Some p => truthy p && pystr_eqb token_lower (lower p)
        | None => false
        end in
      if same then dedup_loop prev_token tokens'
      else token :: dedup_loop (Some token) tokens'
  end.

Definition dedup_line (line : pystr) : pystr :=
  let dedup_tokens := dedup_loop None (split line) in
  if bool_decide (dedup_tokens = []) then []
  else join [SP] dedup_tokens.

(** [re.sub(r' +', ' ', s)]: of each run of spaces one is kept. *)
Fixpoint collapse_spaces (s : pystr) : pystr :=
  match s with
  | [] => []
  | c :: rest =>
      match rest with
      | d :: _ =>
          if (c =? SP) && (d =? SP) then collapse_spaces rest
          else c :: collapse_spaces rest
      | [] => [c]
      end
  end.

(** The body of the [while True] loop for one chunk. *)
Definition clean_chunk (chunk : pystr) : pystr :=
  let chunk := remove_metadata chunk in
  let cleaned_chunk := keep_allowed chunk in
  let lines := split_on LF cleaned_chunk in
  let deduplicated_lines := map dedup_line lines in
  let cleaned_chunk := join [LF] deduplicated_lines in
  collapse_spaces cleaned_chunk.

Record clean_result := {
  cleaned_file : pystr;
  original_chars : nat;
  cleaned_chars : nat
}.

Definition clean_step (r : clean_result) (chunk : pystr) : clean_result :=
  let cleaned_chunk := clean_chunk chunk in
  {| cleaned_file := cleaned_file r ++ cleaned_chunk;
     original_chars := original_chars r + length chunk;
     cleaned_chars := cleaned_chars r + length cleaned_chunk |}.

Definition clean_text_streaming_with (n : nat) (input : pystr)
    : clean_result :=
  foldl clean_step
        {| cleaned_file := []; original_chars := 0; cleaned_chars := 0 |}
        (file_chunks n input).

Definition clean_text_streaming (input : pystr) : clean_result :=
  clean_text_streaming_with chunk_size input.

(** ** Line filter: [process_lines_streaming] *)

(** [for line in infile]: the lines of a text, each with its line
    break; the last one may lack it. *)
Fixpoint file_lines (s : pystr) : list pystr :=
  match s with
  | [] => []
  | c :: rest =>
      if c =? LF then [LF] :: file_lines rest
      else match file_lines rest with
           | l :: ls => (c :: l) :: ls
           | [] => [[c]]
           end
  end.

(** The dictionary [word_counts] after the loop over [words]. *)
Definition count_words (words : list pystr) : gmap pystr nat :=
  foldl (λ (word_counts : gmap pystr nat) word,
           let word_lower := lower word in
           <[word_lower := (default 0 (word_counts !! word_lower) + 1)%nat]>
             word_counts)
        ∅ words.

(** [max(word_counts.values())] *)
Definition max_count (word_counts : gmap pystr nat) : nat :=
  max_list (snd <$> map_to_list word_counts).

(** [max_count / len(words) > 0.8].  Python divides in binary64 and
    compares with the double nearest to 0.8, which lies above 4/5 by
    less than 2^-54.  The quotient of two integers is correctly
    rounded, and for a line of [n] words a share above 4/5 exceeds it by
    at least 1/(5n); so for every line of fewer than 2^50 words the test
    holds exactly when [5 * max_count > 4 * len(words)].  That exact
    comparison is the model; [share_exceeds_80_binary64] below is the
    test as the interpreter evaluates it. *)
Definition share_exceeds_80 (count len : nat) : bool :=
  (4 * len <? 5 * count)%nat.

Definition float_of_nat (n : nat) : float :=
  PrimFloat.of_uint63 (Uint63.of_Z (Z.of_nat n)).

(** [0x1.999999999999ap-1] is the double the literal [0.8] denotes. *)
Definition share_exceeds_80_binary64 (count len : nat) : bool :=
  PrimFloat.ltb 0x1.999999999999ap-1%float
                (PrimFloat.div (float_of_nat count) (float_of_nat len)).

(** Both tests agree for all counts up to [len], for all [len] up to
    [bound]. *)
Definition tests_agree_upto (bound : nat) : bool :=
  forallb (λ len,
             forallb (λ count,
                        Bool.eqb (share_exceeds_80_binary64 count len)
                                 (share_exceeds_80 count len))
                     (seq 0 (S len)))
          (seq 1 bound).

Record filter_state := {
  seen_lines : gset pystr;
  removed_single_word : nat;
  duplicate_count : nat;
  removed_repeats : nat;
  total_lines : nat;
  consecutive_empty : nat;
  (** the lines handed to [outfile.write], oldest first; each is
      written followed by a line break *)
  outfile : list pystr
}.

Definition filter_init : filter_state :=
  {| seen_lines := ∅; removed_single_word := 0; duplicate_count := 0;
     removed_repeats := 0; total_lines := 0; consecutive_empty := 0;
     outfile := [] |}.

(** One iteration of [for line in infile]. *)
Definition filter_step (st : filter_state) (raw : pystr) : filter_state :=
  let total := S (total_lines st) in
  let line := strip raw in
  if negb (truthy line) then
    let empties := S (consecutive_empty st) in
    {| seen_lines := seen_lines st;
       removed_single_word := removed_single_word st;
       duplicate_count := duplicate_count st;
       removed_repeats := removed_repeats st;
       total_lines := total;
       consecutive_empty := empties;
       outfile := if (empties <=? 2)%nat then outfile st ++ [[]]
                  else outfile st |}
  else
    let words := split line in
    if (length words <=? 1)%nat then
      {| seen_lines := seen_lines st;
         removed_single_word := S (removed_single_word st);
         duplicate_count := duplicate_count st;
         removed_repeats := removed_repeats st;
         total_lines := total;
         consecutive_empty := 0;
         outfile := outfile st |}
    else if (5 <=? length words)%nat
            && share_exceeds_80 (max_count (count_words words))
                                (length words) then
      {| seen_lines := seen_lines st;
         removed_single_word := removed_single_word st;
         duplicate_count := duplicate_count st;
         removed_repeats := S (removed_repeats st);
         total_lines := total;
         consecutive_empty := 0;
         outfile := outfile st |}
    else if bool_decide (line ∈ seen_lines st) then
      {| seen_lines := seen_lines st;
         removed_single_word := removed_single_word st;
         duplicate_count := S (duplicate_count st);
         removed_repeats := removed_repeats st;
         total_lines := total;
         consecutive_empty := 0;
         outfile := outfile st |}
    else
      {| seen_lines := {[line]} ∪ seen_lines st;
         removed_single_word := removed_single_word st;
         duplicate_count := duplicate_count st;
         removed_repeats := removed_repeats st;
         total_lines := total;
         consecutive_empty := 0;
         outfile := outfile st ++ [line] |}.

Definition filter_lines (lines : list pystr) : filter_state :=
  foldl filter_step filter_init lines.

Definition process_lines_streaming (input : pystr) : filter_state :=
  filter_lines (file_lines input).

(** The characters of the output file. *)
Definition output_text (st : filter_state) : pystr :=
  concat (map (λ line, line ++ [LF]) (outfile st)).

(** The tuple the function returns. *)
Definition filter_result (st : filter_state) : nat * nat * nat * nat :=
  (removed_single_word st, duplicate_count st, removed_repeats st,
   total_lines st).

End Runtime.

(** ** Predicates used in the statements *)

(** A token as [str.split] yields it: not empty, without whitespace. *)
Definition token_ok (w : pystr) : Prop :=
  w ≠ [] ∧ Forall (λ c, is_space c = false) w.

(** No two neighbouring tokens are equal after [lower]. *)
Fixpoint repeat_free (U : py_runtime) (tokens : list pystr) : bool :=
  match tokens with
  | a :: rest =>
      match rest with
      | b :: _ => negb (pystr_eqb (lower U b) (lower U a))
                  && repeat_free U rest
      | [] => true
      end
  | [] => true
  end.

(** No two neighbouring characters are both spaces. *)
Fixpoint no_double_space (s : pystr) : bool :=
  match s with
  | c :: rest =>
      match rest with
      | d :: _ => negb ((c =? SP) && (d =? SP)) && no_double_space rest
      | [] => true
      end
  | [] => true
  end.

(** The alphabet of the sanitized stream. *)
Definition in_clean_alphabet (c : N) : bool :=
  is_letter_az c || (c =? SP) || (c =? LF)
  || (c =? 46) || (c =? 44) || (c =? 33) || (c =? 63).

(** The duplicate-word step of the sanitizer on a whole text. *)
Definition dedup_text (U : py_runtime) (text : pystr) : pystr :=
  join [LF] (map (dedup_line U) (split_on LF text)).

(** The number of [words] whose lower-case form is [key], and the
    number of occurrences of a word [w], compared case-insensitively. *)
Definition key_count (U : py_runtime) (key : pystr) (words : list pystr)
    : nat :=
  length (filter (λ v, lower U v = key) words).

Definition occurrences (U : py_runtime) (w : pystr) (words : list pystr)
    : nat :=
  key_count U (lower U w) words.

(** The spam-repetition test of the line filter on a list of words. *)
Definition is_spam (U : py_runtime) (words : list pystr) : bool :=
  (5 <=? length words)%nat
  && share_exceeds_80 (max_count (count_words U words)) (length words).

(** The tests a line passes before it reaches the duplicate check. *)
Definition reaches_dedup (U : py_runtime) (line : pystr) : bool :=
  truthy line
  && negb (length (split line) <=? 1)%nat
  && negb (is_spam U (split line)).

(** The states of the line filter after a line was dropped as a
    duplicate, and after a line was kept. *)
Definition after_duplicate (st : filter_state) : filter_state :=
  {| seen_lines := seen_lines st;
     removed_single_word := removed_single_word st;
     duplicate_count := S (duplicate_count st);
     removed_repeats := removed_repeats st;
     total_lines := S (total_lines st);
     consecutive_empty := 0;
     outfile := outfile st |}.

Definition after_kept (st : filter_state) (line : pystr) : filter_state :=
  {| seen_lines := {[line]} ∪ seen_lines st;
     removed_single_word := removed_single_word st;
     duplicate_count := duplicate_count st;
     removed_repeats := removed_repeats st;
     total_lines := S (total_lines st);
     consecutive_empty := 0;
     outfile := outfile st ++ [line] |}.

Definition after_spam (st : filter_state) : filter_state :=
  {| seen_lines := seen_lines st;
     removed_single_word := removed_single_word st;
     duplicate_count := duplicate_count st;
     removed_repeats := S (removed_repeats st);
     total_lines := S (total_lines st);
     consecutive_empty := 0;
     outfile := outfile st |}.

(** The runtime used to run the scenarios of the specification.  They
    are ASCII texts, on which no table beyond ASCII is consulted. *)
Definition ascii_runtime : py_runtime :=
  {| unicode_isalnum := λ _, false; unicode_lower := λ s, s;
     json_loads := json_loads_text |}.

(** A line of text with its line break. *)
Definition nl (s : string) : pystr := str s ++ [LF].

(** A string literal of JSON text, between its quotation marks. *)
Definition quoted (s : string) : pystr := [34] ++ str s ++ [34].

(** The text of [b.json] in Scenario C. *)
Definition scenario_json : pystr :=
  str "{" ++ quoted "body" ++ str ":[{" ++ quoted "text" ++ str ":"
  ++ quoted "foo bar" ++ str "," ++ quoted "pos" ++ str ":" ++ quoted "NN"
  ++ str "}]}".

(** The two sources of Scenario C. *)
Definition scenario_disk : gmap pystr file_data :=
  <[str "a.txt" := Text (nl "hello world")]>
    (<[str "b.json" := Text scenario_json]> ∅).

(** Three JSON sources that cannot be read: malformed text, a file that
    cannot be opened, and bytes that do not decode. *)
Definition failing_disk : gmap pystr file_data :=
  <[str "bad.json" := Text (str "{")]>
    (<[str "locked.json" := Unreadable]>
       (<[str "latin1.json" := Undecodable []]> ∅)).

(** The input on which the sanitizer meets a chunk boundary inside a
    word: the first chunk ends after [the t]. *)
Definition boundary_input : pystr :=
  repeat SP (chunk_size - 5) ++ str "the the the".

(** What holds of every state the loop of the line filter reaches. *)
Record filter_inv (U : py_runtime) (st : filter_state) : Prop := {
  inv_written :
    ∀ l, l ∈ outfile st → l = [] ∨ reaches_dedup U l = true;
  inv_seen : ∀ l, l ∈ seen_lines st ↔ l ∈ outfile st ∧ l ≠ [];
  inv_nodup : NoDup (filter (λ l, l ≠ []) (outfile st))
}.


(** ** The rest of the script *)

(** *** Reading back a file the script wrote

    A file opened for reading in text mode delivers [\r\n] and a lone
    [\r] as [\n].  A file opened for writing stores [\n] as the line
    separator of the platform, which is [\n] itself (POSIX). *)

Definition CR : N := 13.

Fixpoint universal_newlines (s : pystr) : pystr :=
  match s with
  | [] => []
  | c :: rest =>
      if c =? CR then
        match rest with
        | d :: _ => if d =? LF then universal_newlines rest
                    else LF :: universal_newlines rest
        | [] => [LF]
        end
      else c :: universal_newlines rest
  end.

(** *** [combine_and_clean_files]

    [find_files_recursive] and [input] belong to the surroundings: the
    list [all_files] and the answer [response] are inputs, and so is
    what [folder.exists()] and [folder.is_dir()] report.  The two
    temporary files and the output file are kept apart from the map of
    the sources; writing them succeeds. *)

Record run_result := {
  success : bool;                  (** the value returned *)
  sources : gmap pystr file_data;  (** the sources left on disk *)
  output_file : option pystr;      (** the output file, once opened *)
  temp_files : list pystr          (** temporary files left behind *)
}.

Definition run_refused (fs : gmap pystr file_data) : run_result :=
  {| success := false; sources := fs; output_file := None;
     temp_files := [] |}.

Definition combine_and_clean_files (U : py_runtime)
    (folder_exists folder_is_dir : bool) (all_files : list pystr)
    (response : pystr) (fs : gmap pystr file_data) : run_result :=
  if negb folder_exists then run_refused fs
  else if negb folder_is_dir then run_refused fs
  else if bool_decide (all_files = []) then run_refused fs
  else if negb (pystr_eqb (lower U response) (str "y")) then run_refused fs
  else
    (* STEP 1 *)
    let combine := combine_files_streaming U all_files fs in
    let temp_combined := combined combine in
    (* STEP 2 *)
    let clean := clean_text_streaming U (universal_newlines temp_combined) in
    let temp_cleaned := cleaned_file clean in
    (* [removed_chars/original_chars*100] raises [ZeroDivisionError];
       the [except] clause returns [False] *)
    if (original_chars clean =? 0)%nat then
      {| success := false; sources := disk combine; output_file := None;
         temp_files := [temp_combined; temp_cleaned] |}
    else
      (* STEP 3 *)
      let lines := process_lines_streaming U
                     (universal_newlines temp_cleaned) in
      {| success := true; sources := disk combine;
         output_file := Some (output_text lines); temp_files := [] |}.

(** *** [progress_bar]: the bar

    [filled_length] and [bar] for integer [current] and [total], as all
    callers pass them; [None] when the function returns at once.  A
    string repeated a negative number of times is empty. *)
Definition progress_bar_bar (current total bar_length : Z) : option pystr :=
  if (total =? 0)%Z then None
  else
    let filled_length := (bar_length * current / total)%Z in
    Some (repeat 9608 (Z.to_nat filled_length)
          ++ repeat 9617 (Z.to_nat (bar_length - filled_length))).

(** ** Further notions used in the statements *)

(** The [text] entry of a sub-record of [body], if it is a dictionary
    that has one. *)
Definition record_text (line : json) : option json :=
  match line with
  | JObject fields => dict_get (str "text") fields
  | _ => None
  end.

(** The string [text] entries of the sub-records, in order. *)
Definition string_texts (body : list json) : list pystr :=
  omap (λ line, match record_text line with
                | Some (JString t) => Some t
                | _ => None
                end) body.

(** A sub-record whose [text], if present, is a string. *)
Definition text_is_string (line : json) : Prop :=
  match record_text line with
  | Some (JString _) | None => True
  | Some _ => False
  end.

(** What a source that can be read adds to the combined stream. *)
Definition source_text (U : py_runtime) (fs : gmap pystr file_data)
    (path : pystr) : pystr :=
  if is_json_path U path then
    let text := extract_text_from_json U (fs !! path) in
    if truthy text then text ++ [LF] else []
  else
    match fs !! path with
    | Some (Text content) => content ++ [LF]
    | _ => []
    end.

(** A source that is a regular file on disk which can be opened and
    decoded, and whose text can be encoded. *)
Definition source_ok (U : py_runtime) (fs : gmap pystr file_data)
    (path : pystr) : Prop :=
  ∃ content,
    fs !! path = Some (Text content)
    ∧ is_Some (utf8_len (if is_json_path U path
                         then extract_text_from_json U (Some (Text content))
                         else content)).

(** The number of line breaks of a text. *)
Definition line_breaks (s : pystr) : nat :=
  length (filter (λ c, c = LF) s).

(** Every space has a character that is not whitespace before it and
    after it; [prev] tells whether the text is preceded by one. *)
Fixpoint spaces_between (prev : bool) (s : pystr) : bool :=
  match s with
  | [] => true
  | c :: rest =>
      if c =? SP then
        prev
        && match rest with d :: _ => negb (is_space d) | [] => false end
        && spaces_between false rest
      else spaces_between (negb (is_space c)) rest
  end.

(** The lines that are empty once trimmed. *)
Definition blank_count (lines : list pystr) : nat :=
  length (filter (λ raw, strip raw = []) lines).

(** The lines written that are not empty. *)
Definition kept_count (st : filter_state) : nat :=
  length (filter (λ l, l ≠ []) (outfile st)).

(** A folder with one JSON source that has no text. *)
Definition no_text_disk : gmap pystr file_data :=
  <[str "empty.json" := Text (str "{}")]> ∅.

(** A record container with two texts, a sub-record without text and an
    item that is no sub-record. *)
Definition records_json : pystr :=
  str "{" ++ quoted "body" ++ str ":[{" ++ quoted "text" ++ str ":"
  ++ quoted "one" ++ str "},{" ++ quoted "pos" ++ str ":" ++ quoted "NN"
  ++ str "},7,{" ++ quoted "text" ++ str ":" ++ quoted "two" ++ str "}]}".

(** Three sources: a text file, a record container and a text file that
    cannot be opened. *)
Definition mixed_disk : gmap pystr file_data :=
  <[str "a.txt" := Text (nl "hello world")]>
    (<[str "b.json" := Text records_json]>
       (<[str "c.txt" := Unreadable]> ∅)).

(** A folder in which a directory is named like a JSON source, next to
    a text file. *)
Definition directory_disk : gmap pystr file_data :=
  <[str "poems.json" := Directory]>
    (<[str "a.txt" := Text (nl "hello world")]> ∅).

(** The writes for one source leave the disk and the count of deleted
    files as they are in [st]. *)
Definition keeps (st : combine_state) (o : outcome) : Prop :=
  disk (outcome_state o) = disk st
  ∧ deleted_count (outcome_state o) = deleted_count st.

(** The combined stream is [extra] bytes longer than [total_bytes]. *)
Definition bytes_counted (extra : nat) (st : combine_state) : Prop :=
  utf8_len (combined st) = Some (total_bytes st + extra)%nat.

(** Whether the [try] body for [file_path], entered in state [st],
    gets as far as its [outfile.write('\n')]: for a JSON path when the
    extracted text is not empty and is encoded, for any other path when
    the file is opened, read to its end and every chunk encoded. *)
Definition writes_break (U : py_runtime) (st : combine_state)
    (file_path : pystr) : bool :=
  if is_json_path U file_path then
    let text := extract_text_from_json U (disk st !! file_path) in
    truthy text && bool_decide (is_Some (utf8_len text))
  else
    match disk st !! file_path with
    | Some (Text content) => bool_decide (is_Some (utf8_len content))
    | _ => false
    end.

(** The number of iterations of the loop over [files], started in
    [st], that get as far as [outfile.write('\n')]. *)
Fixpoint breaks_from (U : py_runtime) (st : combine_state)
    (files : list pystr) : nat :=
  match files with
  | [] => 0
  | file_path :: rest =>
      ((if writes_break U st file_path then 1 else 0)
       + breaks_from U (combine_step U st file_path) rest)%nat
  end.

(** The line breaks that [combine_files_streaming] appends of its own
    in a run over [files] on the disk [fs]. *)
Definition appended_breaks (U : py_runtime) (files : list pystr)
    (fs : gmap pystr file_data) : nat :=
  breaks_from U
    {| disk := fs; combined := []; deleted_count := 0; total_bytes := 0 |}
    files.

(** The length of [parts] joined by a one-character separator, plus
    one. *)
Definition joined_size (parts : list pystr) : nat :=
  sum_list (map (λ p, S (length p)) parts).

(** [records_json] as [json.load] reads it. *)
Definition records_body : list json :=
  [JObject [(str "text", JString (str "one"))];
   JObject [(str "pos", JString (str "NN"))];
   JNumber (str "7");
   JObject [(str "text", JString (str "two"))]].

Definition records_members : list (pystr * json) :=
  [(str "body", JArray records_body)].

(** * Facts about the text primitives *)

Lemma space_is_space : is_space SP = true.
Proof. reflexivity. Qed.

Lemma newline_is_space : is_space LF = true.
Proof. reflexivity. Qed.

Lemma nonspace_neq c : is_space c = false → c ≠ SP ∧ c ≠ LF.
Proof. intros H; split; intros E; rewrite E in H; discriminate H. Qed.

Lemma token_ok_cons c w :
  token_ok (c :: w) ↔ is_space c = false ∧ Forall (λ c, is_space c = false) w.
Proof.
  unfold token_ok. rewrite Forall_cons. split; [intros [_ H]; exact H|].
  intros H. split; [discriminate|exact H].
Qed.

Lemma split_cons c rest :
  split (c :: rest) =
  if is_space c then split rest
  else match rest with
       | [] => [[c]]
       | d :: _ =>
           if is_space d then [c] :: split rest
           else match split rest with
                | w :: ws => (c :: w) :: ws
                | [] => [[c]]
                end
       end.
Proof. reflexivity. Qed.

Lemma split_tokens_ok s : Forall token_ok (split s).
Proof.
  induction s as [|c rest IH]; [constructor|].
  rewrite split_cons.
  destruct (is_space c) eqn:Hc; [exact IH|].
  destruct rest as [|d rest'].
  { repeat constructor; [done|exact Hc]. }
  destruct (is_space d) eqn:Hd.
  { constructor; [|exact IH]. apply token_ok_cons. by split. }
  destruct (split (d :: rest')) as [|w ws]; [repeat constructor; done|].
  inversion IH as [|? ? [_ Hw] Hws]; subst.
  constructor; [|exact Hws]. apply token_ok_cons. by split.
Qed.

Lemma split_chars s w c : w ∈ split s → c ∈ w → c ∈ s.
Proof.
  revert w. induction s as [|x rest IH]; intros w Hw Hc.
  { inversion Hw. }
  rewrite split_cons in Hw.
  destruct (is_space x); [right; eauto|].
  destruct rest as [|d rest'].
  { apply list_elem_of_singleton in Hw as ->. exact Hc. }
  destruct (is_space d).
  { apply elem_of_cons in Hw as [->|Hw]; [|right; eauto].
    apply list_elem_of_singleton in Hc as ->. left. }
  destruct (split (d :: rest')) as [|w' ws].
  { apply list_elem_of_singleton in Hw as ->.
    apply list_elem_of_singleton in Hc as ->. left. }
  apply elem_of_cons in Hw as [->|Hw].
  - apply elem_of_cons in Hc as [->|Hc]; [left|right].
    apply (IH w'); [left|exact Hc].
  - right. apply (IH w); [by right|exact Hc].
Qed.

(** A token followed by nothing or by whitespace is split off whole. *)
Lemma split_token_app t s :
  token_ok t → match s with [] => True | d :: _ => is_space d = true end →
  split (t ++ s) = t :: split s.
Proof.
  intros [Hne Hall] Hs.
  induction t as [|c t IH]; [done|].
  apply Forall_cons in Hall as [Hc Hall].
  change ((c :: t) ++ s) with (c :: (t ++ s)).
  rewrite split_cons, Hc.
  destruct t as [|c' t'].
  - simpl. destruct s as [|d s']; [done|]. by rewrite Hs.
  - specialize (IH ltac:(done) Hall).
    apply Forall_cons in Hall as [Hc' _].
    cbn [app] in *. rewrite Hc'. by rewrite IH.
Qed.

Lemma split_space c s : is_space c = true → split (c :: s) = split s.
Proof. intros H. by rewrite split_cons, H. Qed.

Lemma join_cons2 sep a b rest :
  join sep (a :: b :: rest) = a ++ sep ++ join sep (b :: rest).
Proof. reflexivity. Qed.

Lemma split_join tokens :
  Forall token_ok tokens → split (join [SP] tokens) = tokens.
Proof.
  induction 1 as [|t ts Ht Hts IH]; [done|].
  destruct ts as [|t2 ts].
  - simpl. rewrite <- (app_nil_r t) at 1. by rewrite split_token_app.
  - rewrite join_cons2. rewrite split_token_app; [|done|done].
    cbn [app]. rewrite split_space by done. by rewrite IH.
Qed.

Lemma join_chars sep parts c :
  c ∈ join sep parts → c ∈ sep ∨ ∃ p, p ∈ parts ∧ c ∈ p.
Proof.
  induction parts as [|a [|b rest] IH]; intros Hc.
  - inversion Hc.
  - right. exists a. split; [left|exact Hc].
  - rewrite join_cons2 in Hc.
    apply elem_of_app in Hc as [Hc|Hc]; [right; exists a; split; [left|done]|].
    apply elem_of_app in Hc as [Hc|Hc]; [by left|].
    destruct (IH Hc) as [?|(p & Hp & Hcp)]; [by left|].
    right. exists p. split; [by right|done].
Qed.

Lemma split_on_cons sep c rest :
  split_on sep (c :: rest) =
  if c =? sep then [] :: split_on sep rest
  else match split_on sep rest with
       | field :: fields => (c :: field) :: fields
       | [] => [[c]]
       end.
Proof. reflexivity. Qed.

Lemma split_on_nonempty sep s : split_on sep s ≠ [].
Proof.
  destruct s as [|c rest]; [done|]. rewrite split_on_cons.
  destruct (c =? sep); [done|]. by destruct (split_on sep rest).
Qed.

Lemma split_on_chars sep s l c : l ∈ split_on sep s → c ∈ l → c ∈ s.
Proof.
  revert l. induction s as [|x rest IH]; intros l Hl Hc.
  { apply list_elem_of_singleton in Hl as ->. inversion Hc. }
  rewrite split_on_cons in Hl. destruct (x =? sep).
  { apply elem_of_cons in Hl as [->|Hl]; [inversion Hc|right; eauto]. }
  destruct (split_on sep rest) as [|f fs].
  { apply list_elem_of_singleton in Hl as ->.
    apply list_elem_of_singleton in Hc as ->. left. }
  apply elem_of_cons in Hl as [->|Hl].
  - apply elem_of_cons in Hc as [->|Hc]; [left|right].
    apply (IH f); [left|done].
  - right. apply (IH l); [by right|done].
Qed.

Lemma split_on_field_app sep l s :
  sep ∉ l → split_on sep (l ++ sep :: s) = l :: split_on sep s.
Proof.
  induction l as [|c l IH]; intros Hl.
  - simpl. by rewrite N.eqb_refl.
  - change ((c :: l) ++ sep :: s) with (c :: (l ++ sep :: s)).
    rewrite split_on_cons.
    apply not_elem_of_cons in Hl as [Hc Hl].
    destruct (N.eqb_spec c sep); [done|]. by rewrite IH.
Qed.

Lemma split_on_single sep l : sep ∉ l → split_on sep l = [l].
Proof.
  induction l as [|c l IH]; intros Hl; [done|].
  rewrite split_on_cons. apply not_elem_of_cons in Hl as [Hc Hl].
  destruct (N.eqb_spec c sep); [done|]. by rewrite IH.
Qed.

Lemma split_on_join sep lines :
  lines ≠ [] → Forall (λ l, sep ∉ l) lines →
  split_on sep (join [sep] lines) = lines.
Proof.
  intros Hne Hall. induction Hall as [|l ls Hl Hls IH]; [done|].
  destruct ls as [|l2 ls].
  - simpl. by apply split_on_single.
  - rewrite join_cons2. cbn [app]. rewrite split_on_field_app by done.
    by rewrite IH.
Qed.

Lemma elem_of_concat (ls : list pystr) c :
  c ∈ concat ls ↔ ∃ l, l ∈ ls ∧ c ∈ l.
Proof.
  rewrite list_elem_of_In, in_concat. split.
  - intros (l & Hl & Hc). exists l. by rewrite !list_elem_of_In.
  - intros (l & Hl & Hc). exists l. by rewrite <- !list_elem_of_In.
Qed.

(** * The character sanitizer *)

Section Sanitizer.
Variable U : py_runtime.

Lemma sub_bounded_word_chars word prev skip s c :
  c ∈ sub_bounded_word U word prev skip s → c ∈ s.
Proof.
  revert prev skip. induction s as [|x rest IH]; intros prev skip Hc.
  { inversion Hc. }
  cbn [sub_bounded_word] in Hc. destruct skip as [|k].
  - destruct (_ && _ && _) in Hc.
    + right. eauto.
    + apply elem_of_cons in Hc as [->|Hc]; [left|right; eauto].
  - right. eauto.
Qed.

Lemma remove_metadata_chars chunk c :
  c ∈ remove_metadata U chunk → c ∈ chunk.
Proof.
  unfold remove_metadata, metadata_patterns. cbn [foldl].
  apply sub_bounded_word_chars.
Qed.

Lemma keep_allowed_chars chunk c :
  c ∈ keep_allowed chunk ↔ c ∈ chunk ∧ allowed_char c = true.
Proof.
  unfold keep_allowed. rewrite !list_elem_of_In. apply filter_In.
Qed.

Lemma allowed_nonspace_alphabet c :
  allowed_char c = true → is_space c = false →
  in_clean_alphabet c = true ∧ is_ascii c = true.
Proof.
  unfold allowed_char, in_clean_alphabet. intros Ha Hs. rewrite Hs in Ha.
  destruct (N.eqb_spec c 10) as [E|_]; [rewrite E in Hs; discriminate Hs|].
  rewrite !orb_false_r in Ha.
  destruct (is_letter_az c) eqn:Hl.
  { split; [done|]. unfold is_letter_az, is_lower_az, is_upper_az in Hl.
    unfold is_ascii. apply N.ltb_lt.
    apply orb_prop in Hl as [Hl|Hl]; apply andb_prop in Hl as [_ Hl];
      apply N.leb_le in Hl; lia. }
  cbn [orb] in Ha.
  assert (c = 46 ∨ c = 44 ∨ c = 33 ∨ c = 63) as Hc.
  { destruct (N.eqb_spec c 46); [by left|].
    destruct (N.eqb_spec c 44); [by right; left|].
    destruct (N.eqb_spec c 33); [by right; right; left|].
    destruct (N.eqb_spec c 63); [by right; right; right|]. done. }
  destruct Hc as [->|[->|[->| ->]]]; done.
Qed.

Lemma dedup_loop_sub prev tokens t :
  t ∈ dedup_loop U prev tokens → t ∈ tokens.
Proof.
  revert prev. induction tokens as [|x rest IH]; intros prev Ht.
  { inversion Ht. }
  cbn [dedup_loop] in Ht.
  destruct (match prev with Some p => _ | None => false end).
  - right. eauto.
  - apply elem_of_cons in Ht as [->|Ht]; [left|right; eauto].
Qed.

Lemma dedup_loop_cons prev token tokens :
  dedup_loop U prev (token :: tokens) =
  if match prev with
     | Some p => truthy p && pystr_eqb (lower U token) (lower U p)
     | None => false
     end
  then dedup_loop U prev tokens
  else token :: dedup_loop U (Some token) tokens.
Proof. reflexivity. Qed.

Lemma repeat_free_cons2 a b rest :
  repeat_free U (a :: b :: rest) =
  negb (pystr_eqb (lower U b) (lower U a)) && repeat_free U (b :: rest).
Proof. reflexivity. Qed.

Lemma pystr_eqb_false a b : pystr_eqb a b = false ↔ a ≠ b.
Proof. unfold pystr_eqb. apply bool_decide_eq_false. Qed.

Lemma truthy_nonempty s : s ≠ [] → truthy s = true.
Proof. by destruct s. Qed.

(** After the loop no token equals its predecessor, nor does the first
    one equal the token the loop was entered with. *)
Lemma dedup_loop_repeat_free tokens :
  Forall (λ t, t ≠ []) tokens →
  ∀ prev,
    repeat_free U (dedup_loop U prev tokens) = true
    ∧ ∀ p h, prev = Some p → p ≠ [] →
             head (dedup_loop U prev tokens) = Some h →
             lower U h ≠ lower U p.
Proof.
  induction 1 as [|t ts Ht Hts IH]; intros prev.
  { split; [done|]. intros p h _ _ Hh. discriminate Hh. }
  rewrite dedup_loop_cons.
  destruct (match prev with Some p => _ | None => false end) eqn:Hsame.
  { apply IH. }
  destruct (IH (Some t)) as [Hfree Hhead]. split.
  - destruct (dedup_loop U (Some t) ts) as [|h rest] eqn:Hloop; [done|].
    rewrite repeat_free_cons2, Hfree, andb_true_r.
    apply negb_true_iff, pystr_eqb_false. by apply Hhead.
  - intros p h -> Hp [= <-].
    rewrite truthy_nonempty in Hsame by done.
    by apply pystr_eqb_false in Hsame.
Qed.

(** On a list without neighbouring repeats the loop keeps everything. *)
Lemma dedup_loop_fixed tokens :
  ∀ prev,
    repeat_free U tokens = true →
    (∀ p h, prev = Some p → head tokens = Some h → lower U h ≠ lower U p) →
    dedup_loop U prev tokens = tokens.
Proof.
  induction tokens as [|t ts IH]; intros prev Hfree Hprev; [done|].
  rewrite dedup_loop_cons.
  assert (match prev with
          | Some p => truthy p && pystr_eqb (lower U t) (lower U p)
          | None => false
          end = false) as ->.
  { destruct prev as [p|]; [|done].
    apply andb_false_iff. right. apply pystr_eqb_false. by apply Hprev. }
  f_equal. apply IH.
  - destruct ts as [|t2 ts']; [done|].
    rewrite repeat_free_cons2 in Hfree. by apply andb_prop in Hfree as [_ ?].
  - intros p h [= <-] Hh. destruct ts as [|t2 ts']; [done|].
    injection Hh as ->. rewrite repeat_free_cons2 in Hfree.
    apply andb_prop in Hfree as [Hne _].
    by apply negb_true_iff, pystr_eqb_false in Hne.
Qed.

Lemma dedup_line_join line :
  dedup_line U line = join [SP] (dedup_loop U None (split line)).
Proof.
  unfold dedup_line. case_bool_decide as H; [by rewrite H|done].
Qed.

Lemma dedup_tokens_ok line :
  Forall token_ok (dedup_loop U None (split line)).
Proof.
  apply Forall_forall. intros t Ht%dedup_loop_sub.
  by apply (proj1 (Forall_forall _ _) (split_tokens_ok line)).
Qed.

Lemma dedup_line_chars line c :
  c ∈ dedup_line U line → c = SP ∨ (c ∈ line ∧ is_space c = false).
Proof.
  rewrite dedup_line_join. intros [Hc|(t & Ht & Hc)]%join_chars.
  { left. by apply list_elem_of_singleton in Hc. }
  right. pose proof Ht as Hok.
  apply (proj1 (Forall_forall _ _) (dedup_tokens_ok line)) in Hok as [_ Hok].
  split.
  - apply dedup_loop_sub in Ht. by apply (split_chars line t).
  - by apply (proj1 (Forall_forall _ _) Hok).
Qed.

Lemma dedup_line_tokens line :
  split (dedup_line U line) = dedup_loop U None (split line).
Proof. rewrite dedup_line_join. apply split_join, dedup_tokens_ok. Qed.

Lemma dedup_line_repeat_free line :
  repeat_free U (split (dedup_line U line)) = true.
Proof.
  rewrite dedup_line_tokens. apply dedup_loop_repeat_free.
  eapply Forall_impl; [apply split_tokens_ok|]. by intros t [? _].
Qed.

Lemma dedup_line_idempotent line :
  dedup_line U (dedup_line U line) = dedup_line U line.
Proof.
  rewrite (dedup_line_join (dedup_line U line)), dedup_line_tokens.
  rewrite dedup_loop_fixed; [by rewrite dedup_line_join| |done].
  rewrite <- dedup_line_tokens. apply dedup_line_repeat_free.
Qed.

Lemma no_double_space_cons2 c d rest :
  no_double_space (c :: d :: rest) =
  negb ((c =? SP) && (d =? SP)) && no_double_space (d :: rest).
Proof. reflexivity. Qed.

Lemma collapse_spaces_cons2 c d rest :
  collapse_spaces (c :: d :: rest) =
  if (c =? SP) && (d =? SP) then collapse_spaces (d :: rest)
  else c :: collapse_spaces (d :: rest).
Proof. reflexivity. Qed.

Lemma collapse_spaces_chars s c : c ∈ collapse_spaces s → c ∈ s.
Proof.
  induction s as [|x [|d rest] IH]; intros Hc; [done|done|].
  rewrite collapse_spaces_cons2 in Hc. destruct (_ && _).
  - right. by apply IH.
  - apply elem_of_cons in Hc as [->|Hc]; [left|right; by apply IH].
Qed.

Lemma collapse_spaces_fixed s :
  no_double_space s = true → collapse_spaces s = s.
Proof.
  induction s as [|c [|d rest] IH]; intros H; [done|done|].
  rewrite no_double_space_cons2 in H. apply andb_prop in H as [H1 H2].
  rewrite collapse_spaces_cons2. apply negb_true_iff in H1. rewrite H1.
  by rewrite IH.
Qed.

Lemma no_double_space_mid a c b :
  c ≠ SP →
  no_double_space (a ++ c :: b) = no_double_space a && no_double_space b.
Proof.
  intros Hc. induction a as [|x [|y a'] IH].
  - cbn [app]. destruct b as [|d b']; [done|].
    rewrite no_double_space_cons2.
    destruct (N.eqb_spec c SP); [done|]. done.
  - cbn [app]. rewrite no_double_space_cons2.
    destruct (N.eqb_spec c SP); [done|]. rewrite andb_false_r. cbn [negb andb].
    exact IH.
  - cbn [app] in *. rewrite !no_double_space_cons2, IH.
    by rewrite andb_assoc.
Qed.

Lemma no_double_space_token t s :
  Forall (λ c, is_space c = false) t →
  no_double_space (t ++ s) = no_double_space s.
Proof.
  induction 1 as [|c t Hc Ht IH]; [done|].
  cbn [app]. destruct (t ++ s) as [|d r] eqn:E.
  - apply app_eq_nil in E as [_ ->]. done.
  - rewrite no_double_space_cons2. apply nonspace_neq in Hc as [Hc _].
    destruct (N.eqb_spec c SP); [done|]. exact IH.
Qed.

Lemma join_tokens_head t ts :
  token_ok t → ∃ x r, join [SP] (t :: ts) = x :: r ∧ is_space x = false.
Proof.
  intros [Hne Hall]. destruct t as [|x t']; [done|].
  apply Forall_cons in Hall as [Hx _].
  destruct ts as [|t2 ts]; [by exists x, t'|].
  rewrite join_cons2. by eexists x, _.
Qed.

Lemma join_tokens_no_double_space tokens :
  Forall token_ok tokens → no_double_space (join [SP] tokens) = true.
Proof.
  induction 1 as [|t ts Ht Hts IH]; [done|].
  destruct ts as [|t2 ts].
  - cbn [join]. rewrite <- (app_nil_r t). destruct Ht as [_ Ht].
    by rewrite no_double_space_token.
  - rewrite join_cons2. destruct Ht as [_ Ht].
    rewrite no_double_space_token by done.
    inversion Hts as [|? ? Ht2 _]; subst.
    destruct (join_tokens_head t2 ts Ht2) as (x & r & E & Hx).
    rewrite E in *. cbn [app]. rewrite no_double_space_cons2, IH.
    apply nonspace_neq in Hx as [Hx _].
    destruct (N.eqb_spec x SP); [done|]. by rewrite andb_false_r.
Qed.

Lemma dedup_line_no_double_space line :
  no_double_space (dedup_line U line) = true.
Proof.
  rewrite dedup_line_join.
  apply join_tokens_no_double_space, dedup_tokens_ok.
Qed.

Lemma dedup_line_no_newline line : LF ∉ dedup_line U line.
Proof. intros [H|[_ H]]%dedup_line_chars; discriminate H. Qed.

Lemma join_lines_no_double_space lines :
  Forall (λ l, no_double_space l = true) lines →
  no_double_space (join [LF] lines) = true.
Proof.
  induction 1 as [|l ls Hl Hls IH]; [done|].
  destruct ls as [|l2 ls]; [done|].
  rewrite join_cons2. cbn [app].
  rewrite no_double_space_mid by done. by rewrite Hl, IH.
Qed.

(** The last substitution finds nothing to do: the chunk leaves the
    duplicate-word step with single spaces only. *)
Lemma clean_chunk_unfold chunk :
  clean_chunk U chunk =
  join [LF] (map (dedup_line U)
                 (split_on LF (keep_allowed (remove_metadata U chunk)))).
Proof.
  unfold clean_chunk. apply collapse_spaces_fixed.
  apply join_lines_no_double_space, Forall_map, Forall_forall.
  intros l _. apply dedup_line_no_double_space.
Qed.

Lemma clean_chunk_lines chunk :
  split_on LF (clean_chunk U chunk) =
  map (dedup_line U)
      (split_on LF (keep_allowed (remove_metadata U chunk))).
Proof.
  rewrite clean_chunk_unfold. apply split_on_join.
  - intros E%map_eq_nil. by apply split_on_nonempty in E.
  - apply Forall_map, Forall_forall. intros l _.
    apply dedup_line_no_newline.
Qed.

Lemma clean_chunk_alphabet chunk c :
  c ∈ clean_chunk U chunk →
  in_clean_alphabet c = true ∧ is_ascii c = true.
Proof.
  rewrite clean_chunk_unfold. intros [Hc|(l & Hl & Hc)]%join_chars.
  { by apply list_elem_of_singleton in Hc as ->. }
  apply list_elem_of_fmap in Hl as (line & -> & Hline).
  apply dedup_line_chars in Hc as [->|[Hc Hs]]; [done|].
  apply (split_on_chars _ _ _ _ Hline) in Hc.
  apply keep_allowed_chars in Hc as [_ Hc].
  by apply allowed_nonspace_alphabet.
Qed.

Lemma clean_chunk_repeat_free chunk :
  Forall (λ line, repeat_free U (split line) = true
                  ∧ dedup_line U line = line)
         (split_on LF (clean_chunk U chunk)).
Proof.
  rewrite clean_chunk_lines. apply Forall_map, Forall_forall.
  intros l _. split;
    [apply dedup_line_repeat_free | apply dedup_line_idempotent].
Qed.

Lemma clean_chunk_dedup_text chunk :
  dedup_text U (clean_chunk U chunk) = clean_chunk U chunk.
Proof.
  unfold dedup_text. rewrite clean_chunk_lines, clean_chunk_unfold.
  f_equal. rewrite <- list_fmap_compose. apply list_fmap_ext.
  intros i l _. apply dedup_line_idempotent.
Qed.

(** *** The chunk loop *)

Lemma read_chunks_nil fuel n : read_chunks fuel n [] = [].
Proof. by destruct fuel. Qed.

(** The fuel of [file_chunks] is enough: the chunks are the whole text. *)
Lemma read_chunks_concat fuel n s :
  (0 < n)%nat → (length s ≤ fuel)%nat →
  concat (read_chunks fuel n s) = s.
Proof.
  intros Hn. revert s. induction fuel as [|fuel IH]; intros s Hlen.
  { destruct s; [done|simpl in Hlen; lia]. }
  destruct s as [|c rest]; [done|].
  cbn [read_chunks concat]. rewrite IH.
  - apply take_drop.
  - rewrite length_drop. simpl in *. lia.
Qed.

Lemma file_chunks_concat n s : (0 < n)%nat → concat (file_chunks n s) = s.
Proof. intros Hn. by apply read_chunks_concat. Qed.

Lemma file_chunks_short n s :
  (length s ≤ n)%nat → file_chunks n s = match s with [] => [] | _ => [s] end.
Proof.
  intros Hlen. unfold file_chunks. destruct s as [|c rest]; [done|].
  cbn [length read_chunks]. rewrite take_ge, drop_ge by done.
  by rewrite read_chunks_nil.
Qed.

Lemma clean_fold_file r chunks :
  cleaned_file (foldl (clean_step U) r chunks) =
  cleaned_file r ++ concat (map (clean_chunk U) chunks).
Proof.
  revert r. induction chunks as [|chunk chunks IH]; intros r.
  { by rewrite app_nil_r. }
  cbn [foldl map concat]. rewrite IH. cbn [clean_step cleaned_file].
  by rewrite app_assoc.
Qed.

Lemma cleaned_file_chunks n input :
  cleaned_file (clean_text_streaming_with U n input) =
  concat (map (clean_chunk U) (file_chunks n input)).
Proof. unfold clean_text_streaming_with. by rewrite clean_fold_file. Qed.

Lemma cleaned_file_alphabet n input c :
  c ∈ cleaned_file (clean_text_streaming_with U n input) →
  in_clean_alphabet c = true ∧ is_ascii c = true.
Proof.
  rewrite cleaned_file_chunks. intros (l & Hl & Hc)%elem_of_concat.
  apply list_elem_of_fmap in Hl as (chunk & -> & _).
  by apply clean_chunk_alphabet in Hc.
Qed.

Lemma cleaned_file_short input :
  (length input ≤ chunk_size)%nat →
  cleaned_file (clean_text_streaming U input) =
  match input with [] => [] | _ => clean_chunk U input end.
Proof.
  intros Hlen. unfold clean_text_streaming.
  rewrite cleaned_file_chunks, file_chunks_short by done.
  destruct input; [done|]. cbn [map concat]. by rewrite app_nil_r.
Qed.

End Sanitizer.

Lemma in_clean_alphabet_spec c :
  in_clean_alphabet c = true →
  is_letter_az c = true ∨ c = SP ∨ c = LF
  ∨ c = 46 ∨ c = 44 ∨ c = 33 ∨ c = 63.
Proof.
  unfold in_clean_alphabet. rewrite !orb_true_iff, !N.eqb_eq. tauto.
Qed.

Lemma letter_az_range c :
  is_letter_az c = true ↔ 97 ≤ c ≤ 122 ∨ 65 ≤ c ≤ 90.
Proof.
  unfold is_letter_az, is_lower_az, is_upper_az.
  rewrite orb_true_iff, !andb_true_iff, !N.leb_le. tauto.
Qed.

Lemma digit_range c : is_digit c = true ↔ 48 ≤ c ≤ 57.
Proof. unfold is_digit. by rewrite andb_true_iff, !N.leb_le. Qed.

(** C4: every character of the sanitized output is a letter a-z or A-Z,
    a space, a line break or one of [. , ! ?]; in particular no digit,
    no tab and no carriage return is left. *)
Theorem C4_sanitized_alphabet (U : py_runtime) (input : pystr) (c : N) :
  c ∈ cleaned_file (clean_text_streaming U input) →
  (is_letter_az c = true ∨ c = SP ∨ c = LF
   ∨ c = 46 ∨ c = 44 ∨ c = 33 ∨ c = 63)
  ∧ is_digit c = false ∧ c ≠ 9 ∧ c ≠ 13.
Proof.
  intros [Hc _]%cleaned_file_alphabet.
  apply in_clean_alphabet_spec in Hc. split; [exact Hc|].
  assert (97 ≤ c ≤ 122 ∨ 65 ≤ c ≤ 90 ∨ c = 32 ∨ c = 10
          ∨ c = 46 ∨ c = 44 ∨ c = 33 ∨ c = 63) as Hr.
  { destruct Hc as [Hc%letter_az_range|Hc]; [tauto|].
    unfold SP, LF in Hc. tauto. }
  split; [|lia].
  destruct (is_digit c) eqn:Hd; [|done].
  apply digit_range in Hd. lia.
Qed.

Lemma C4_witness :
  97 ∈ cleaned_file (clean_text_streaming ascii_runtime (str "a1 b#"))
  ∧ is_digit 97 = false.
Proof.
  assert (97 ∈ cleaned_file
                 (clean_text_streaming ascii_runtime (str "a1 b#"))) as H.
  { vm_compute. constructor. }
  split; [exact H|].
  exact (proj1 (proj2 (C4_sanitized_alphabet ascii_runtime _ _ H))).
Defined.

(** C5 (as the code behaves): sanitizing [The Year 2024 was great!!]
    deletes the digits and leaves single spaces, and keeps both
    exclamation marks: the result is [The Year was great!!]. *)
Theorem C5_scenario_D (U : py_runtime) :
  cleaned_file (clean_text_streaming U (str "The Year 2024 was great!!"))
  = str "The Year was great!!".
Proof. vm_compute. reflexivity. Qed.

Lemma C5_counterexample :
  cleaned_file
    (clean_text_streaming ascii_runtime (str "The Year 2024 was great!!"))
  ≠ str "The Year was great!".
Proof. vm_compute. intros H. discriminate H. Qed.

(** C7 (as the code behaves): the duplicate-word step works chunk by
    chunk.  In the output of every chunk, and so in the sanitized output
    of every input of at most [chunk_size] characters, no line has two
    neighbouring tokens that are equal after [lower], and running the
    duplicate-word step again changes nothing.  Of a repeated word the
    first occurrence, with its casing, is the one kept, and
    [The the cat sat.] becomes [The cat sat.]. *)
Theorem C7_no_adjacent_repeats (U : py_runtime) (input : pystr) :
  (length input ≤ chunk_size)%nat →
  let out := cleaned_file (clean_text_streaming U input) in
  Forall (λ line, repeat_free U (split line) = true) (split_on LF out)
  ∧ dedup_text U out = out
  ∧ (∀ chunk,
       Forall (λ line, repeat_free U (split line) = true)
              (split_on LF (clean_chunk U chunk))
       ∧ dedup_text U (clean_chunk U chunk) = clean_chunk U chunk)
  ∧ (∀ t1 t2 rest, t1 ≠ [] → lower U t2 = lower U t1 →
       dedup_loop U None (t1 :: t2 :: rest) = t1 :: dedup_loop U (Some t1) rest)
  ∧ cleaned_file (clean_text_streaming U (nl "The the cat sat."))
    = nl "The cat sat.".
Proof.
  intros Hlen out.
  assert (∀ chunk,
            Forall (λ line, repeat_free U (split line) = true)
                   (split_on LF (clean_chunk U chunk))
            ∧ dedup_text U (clean_chunk U chunk) = clean_chunk U chunk)
    as Hchunk.
  { intros chunk. split; [|apply clean_chunk_dedup_text].
    eapply Forall_impl; [apply clean_chunk_repeat_free|]. by intros l [? _]. }
  assert (out = match input with [] => [] | _ => clean_chunk U input end)
    as Hout by (by apply cleaned_file_short).
  split; [|split; [|split; [exact Hchunk|split]]].
  - rewrite Hout. destruct input; [by repeat constructor|apply Hchunk].
  - rewrite Hout. destruct input; [reflexivity|apply Hchunk].
  - intros t1 t2 rest Hne Heq. rewrite !dedup_loop_cons.
    rewrite truthy_nonempty by done. unfold pystr_eqb.
    by rewrite bool_decide_eq_true_2.
  - vm_compute. reflexivity.
Qed.

Lemma C7_witness :
  (length (nl "The the cat sat.") ≤ chunk_size)%nat
  ∧ Forall (λ line, repeat_free ascii_runtime (split line) = true)
      (split_on LF
         (cleaned_file
            (clean_text_streaming ascii_runtime (nl "The the cat sat.")))).
Proof.
  assert (length (nl "The the cat sat.") ≤ chunk_size)%nat as H.
  { apply Nat.leb_le. vm_compute. reflexivity. }
  split; [exact H|].
  exact (proj1 (C7_no_adjacent_repeats ascii_runtime _ H)).
Defined.

(** The word [the] is cut by the end of the first chunk; its two halves
    are written next to each other and the repetition survives. *)
Lemma boundary_output :
  cleaned_file (clean_text_streaming ascii_runtime boundary_input)
  = str "the the the".
Proof. vm_compute. reflexivity. Qed.

Lemma C7_counterexample :
  ¬ Forall (λ line, repeat_free ascii_runtime (split line) = true)
      (split_on LF
         (cleaned_file (clean_text_streaming ascii_runtime boundary_input))).
Proof.
  rewrite boundary_output.
  intros H. apply Forall_inv in H. vm_compute in H. discriminate H.
Qed.

(** * The line filter *)

Section LineFilter.
Variable U : py_runtime.

Lemma filter_lines_snoc lines raw :
  filter_lines U (lines ++ [raw]) = filter_step U (filter_lines U lines) raw.
Proof. unfold filter_lines. by rewrite foldl_snoc. Qed.

(** The five ways through one iteration. *)
Lemma filter_step_cases st raw :
  let line := strip raw in
  let st' := filter_step U st raw in
  (line = [] ∧ seen_lines st' = seen_lines st
   ∧ (outfile st' = outfile st ∨ outfile st' = outfile st ++ [[]]))
  ∨ (line ≠ [] ∧ seen_lines st' = seen_lines st ∧ outfile st' = outfile st)
  ∨ (reaches_dedup U line = true ∧ (line ∉ seen_lines st)
     ∧ st' = after_kept st line).
Proof.
  intros line st'. subst st'. unfold filter_step. fold line.
  destruct line as [|c l] eqn:Hline.
  { left. cbn [truthy negb]. split; [done|]. split; [done|].
    destruct (_ <=? _)%nat; [by right|by left]. }
  rewrite <- Hline. assert (truthy line = true) as Ht by (by rewrite Hline).
  assert (line ≠ []) as Hne by (by rewrite Hline).
  rewrite Ht. cbn [negb].
  destruct (length (split line) <=? 1)%nat eqn:Hsingle.
  { right; left. done. }
  fold (is_spam U (split line)).
  destruct (is_spam U (split line)) eqn:Hspam.
  { right; left. done. }
  case_bool_decide as Hseen.
  { right; left. done. }
  right; right. unfold reaches_dedup. rewrite Ht, Hsingle, Hspam. done.
Qed.

Lemma filter_step_duplicate st raw :
  reaches_dedup U (strip raw) = true → strip raw ∈ seen_lines st →
  filter_step U st raw = after_duplicate st.
Proof.
  unfold reaches_dedup. intros [[Ht Hs%negb_true_iff]%andb_prop
                                  Hspam%negb_true_iff]%andb_prop Hseen.
  unfold filter_step. rewrite Ht, Hs. cbn [negb].
  fold (is_spam U (split (strip raw))). rewrite Hspam.
  by rewrite bool_decide_eq_true_2.
Qed.

Lemma filter_step_kept st raw :
  reaches_dedup U (strip raw) = true → strip raw ∉ seen_lines st →
  filter_step U st raw = after_kept st (strip raw).
Proof.
  unfold reaches_dedup. intros [[Ht Hs%negb_true_iff]%andb_prop
                                  Hspam%negb_true_iff]%andb_prop Hseen.
  unfold filter_step. rewrite Ht, Hs. cbn [negb].
  fold (is_spam U (split (strip raw))). rewrite Hspam.
  by rewrite bool_decide_eq_false_2.
Qed.

Lemma split_nonempty_truthy line : split line ≠ [] → truthy line = true.
Proof. by destruct line. Qed.

Lemma filter_step_spam st raw :
  is_spam U (split (strip raw)) = true →
  filter_step U st raw = after_spam st.
Proof.
  intros Hspam. pose proof Hspam as H.
  unfold is_spam in H. apply andb_prop in H as [Hlen%Nat.leb_le _].
  unfold filter_step. rewrite split_nonempty_truthy.
  2:{ intros E. rewrite E in Hlen. simpl in Hlen. lia. }
  cbn [negb].
  assert ((length (split (strip raw)) <=? 1)%nat = false) as ->
    by (apply Nat.leb_gt; lia).
  fold (is_spam U (split (strip raw))). by rewrite Hspam.
Qed.

Lemma filter_step_not_spam st raw :
  is_spam U (split (strip raw)) = false →
  removed_repeats (filter_step U st raw) = removed_repeats st.
Proof.
  intros Hspam. unfold filter_step.
  fold (is_spam U (split (strip raw))). rewrite Hspam.
  destruct (negb _); [done|]. destruct (_ <=? _)%nat; [done|].
  by case_bool_decide.
Qed.

Lemma filter_inv_init : filter_inv U filter_init.
Proof.
  split; cbn.
  - intros l H. inversion H.
  - intros l. split; [set_solver|]. intros [H _]. inversion H.
  - constructor.
Qed.

Lemma reaches_dedup_nonempty line : reaches_dedup U line = true → line ≠ [].
Proof. intros H ->. discriminate H. Qed.

Lemma filter_inv_step st raw :
  filter_inv U st → filter_inv U (filter_step U st raw).
Proof.
  intros [Hw Hs Hn].
  destruct (filter_step_cases st raw)
    as [(Hl & Hseen & [Hout|Hout])|[(Hl & Hseen & Hout)|(Hr & Hnew & ->)]].
  - split; [by rewrite Hout|by (intros l; rewrite Hseen, Hout)|by rewrite Hout].
  - split.
    + rewrite Hout. intros l [H|H%list_elem_of_singleton]%elem_of_app;
        [by apply Hw|by left].
    + intros l. rewrite Hseen, Hout, Hs, elem_of_app, list_elem_of_singleton.
      tauto.
    + rewrite Hout, filter_app. cbn. by rewrite app_nil_r.
  - split; [by rewrite Hout|by (intros l; rewrite Hseen, Hout)|by rewrite Hout].
  - pose proof (reaches_dedup_nonempty _ Hr) as Hne.
    split; cbn [after_kept outfile seen_lines].
    + intros l [H|H%list_elem_of_singleton]%elem_of_app;
        [by apply Hw|right; by subst].
    + intros l. rewrite elem_of_union, elem_of_singleton, Hs, elem_of_app,
        list_elem_of_singleton. intuition congruence.
    + rewrite filter_app, filter_cons_True, filter_nil by done.
      apply NoDup_app. split; [done|]. split; [|apply NoDup_singleton].
      intros l [Hl1 Hl2]%list_elem_of_filter ->%list_elem_of_singleton.
      apply Hnew, Hs. done.
Qed.

Lemma filter_lines_inv lines : filter_inv U (filter_lines U lines).
Proof.
  induction lines as [|raw lines IH] using rev_ind.
  - apply filter_inv_init.
  - rewrite filter_lines_snoc. by apply filter_inv_step.
Qed.

Lemma reaches_dedup_words line :
  reaches_dedup U line = true → (2 ≤ length (split line))%nat.
Proof.
  unfold reaches_dedup.
  intros [[_ Hs%negb_true_iff]%andb_prop _]%andb_prop.
  apply Nat.leb_gt in Hs. lia.
Qed.

(** On every line of up to 64 words the exact comparison and the
    binary64 comparison of the interpreter give the same answer. *)
Lemma share_exceeds_80_binary64_agrees : tests_agree_upto 64 = true.
Proof. vm_compute. reflexivity. Qed.

(** *** The lines written are the lines of the output file *)

Lemma lstrip_suffix s : ∃ a, s = a ++ lstrip s.
Proof.
  induction s as [|c s [a IH]]; [by exists []|].
  cbn [lstrip]. destruct (is_space c); [|by exists []].
  exists (c :: a). cbn [app]. by rewrite <- IH.
Qed.

Lemma lstrip_head s c : head (lstrip s) = Some c → is_space c = false.
Proof.
  induction s as [|x s IH]; [done|]. cbn [lstrip].
  destruct (is_space x) eqn:Hx; [exact IH|]. by intros [= <-].
Qed.

Lemma rstrip_prefix s : ∃ b, s = rstrip s ++ b.
Proof.
  unfold rstrip. destruct (lstrip_suffix (rev s)) as [a Ha].
  exists (rev a). rewrite <- rev_app_distr, <- Ha. by rewrite rev_involutive.
Qed.

Lemma rstrip_last s t c : rstrip s = t ++ [c] → is_space c = false.
Proof.
  unfold rstrip. intros E. apply (f_equal (@rev N)) in E.
  rewrite rev_involutive, rev_app_distr in E. cbn in E.
  apply (lstrip_head (rev s)). by rewrite E.
Qed.

(** A line break that is the last character of a line, if it has one at
    all, is not part of the trimmed line. *)
Lemma only_last_newline (x y body : pystr) :
  LF ∉ body → x ++ LF :: y = body ++ [LF] → y = [].
Proof.
  revert body. induction x as [|c x IH]; intros body Hb E.
  - destruct body as [|c' body']; [by injection E|].
    injection E as <- _. contradict Hb. left.
  - destruct body as [|c' body'].
    + injection E as _ E. by destruct x.
    + injection E as _ E. apply (IH body'); [|done].
      intros H. apply Hb. by right.
Qed.

Lemma strip_no_newline raw body :
  LF ∉ body → raw = body ++ [LF] ∨ raw = body → LF ∉ strip raw.
Proof.
  intros Hb Hraw Hin. unfold strip in Hin.
  destruct (lstrip_suffix raw) as [a Ha].
  destruct (rstrip_prefix (lstrip raw)) as [b Hb'].
  apply list_elem_of_split in Hin as (p & q & Hpq).
  rewrite Hb', Hpq in Ha.
  destruct Hraw as [->| ->].
  - assert (q ++ b = []) as [-> _]%app_eq_nil.
    { apply (only_last_newline (a ++ p) _ body Hb).
      rewrite Ha. by rewrite <- !app_assoc. }
    by apply rstrip_last in Hpq.
  - apply Hb. rewrite Ha. rewrite !elem_of_app, elem_of_cons. tauto.
Qed.

Lemma file_lines_cons c rest :
  file_lines (c :: rest) =
  if c =? LF then [LF] :: file_lines rest
  else match file_lines rest with
       | l :: ls => (c :: l) :: ls
       | [] => [[c]]
       end.
Proof. reflexivity. Qed.

(** Every line read has its only line break, if any, at its end. *)
Lemma file_lines_shape s :
  Forall (λ raw, ∃ body, (LF ∉ body) ∧ (raw = body ++ [LF] ∨ raw = body))
         (file_lines s).
Proof.
  induction s as [|c rest IH]; [constructor|].
  rewrite file_lines_cons. destruct (N.eqb_spec c LF) as [->|Hc].
  { constructor; [|exact IH]. exists []. split; [by intros H; inversion H|].
    by left. }
  destruct (file_lines rest) as [|l ls].
  { constructor; [|constructor]. exists [c]. split; [|by right].
    intros E%list_elem_of_singleton. by apply Hc. }
  inversion IH as [|? ? (body & Hb & Hl) Hls]; subst.
  constructor; [|exact Hls]. exists (c :: body). split.
  - intros [E|H]%elem_of_cons; [by apply Hc|by apply Hb].
  - destruct Hl as [->| ->]; [by left|by right].
Qed.

(** The lines of the file are put together again from its text. *)
Lemma file_lines_concat s : concat (file_lines s) = s.
Proof.
  induction s as [|c rest IH]; [done|].
  rewrite file_lines_cons. destruct (N.eqb_spec c LF) as [->|Hc].
  { cbn. by rewrite IH. }
  destruct (file_lines rest) as [|l ls]; cbn in *; by rewrite <- IH.
Qed.

Lemma written_no_newline lines :
  Forall (λ raw, ∃ body, (LF ∉ body) ∧ (raw = body ++ [LF] ∨ raw = body))
         lines →
  Forall (λ l, LF ∉ l) (outfile (filter_lines U lines)).
Proof.
  induction lines as [|raw lines IH] using rev_ind; intros Hall.
  { constructor. }
  apply Forall_app in Hall as [Hlines Hraw]. specialize (IH Hlines).
  apply Forall_inv in Hraw as (body & Hb & Hraw).
  rewrite filter_lines_snoc.
  destruct (filter_step_cases (filter_lines U lines) raw)
    as [(_ & _ & [->| ->])|[(_ & _ & ->)|(_ & _ & ->)]]; [done| |done|].
  - apply Forall_app. split; [done|]. constructor; [|constructor].
    intros H. inversion H.
  - cbn [after_kept outfile]. apply Forall_app. split; [done|].
    constructor; [|constructor]. by apply (strip_no_newline raw body).
Qed.

Lemma split_on_rendered (ls : list pystr) :
  Forall (λ l, LF ∉ l) ls →
  split_on LF (concat (map (λ l, l ++ [LF]) ls)) = ls ++ [[]].
Proof.
  induction 1 as [|l ls Hl Hls IH]; [done|].
  cbn [map concat]. rewrite <- app_assoc. cbn [app].
  rewrite split_on_field_app by done. by rewrite IH.
Qed.

(** Read back line by line, the output file shows the lines written,
    one by one. *)
Lemma output_text_lines input :
  split_on LF (output_text (process_lines_streaming U input)) =
  outfile (process_lines_streaming U input) ++ [[]].
Proof.
  apply split_on_rendered, written_no_newline, file_lines_shape.
Qed.

(** *** The dictionary of word counts *)

Lemma key_count_cons key w words :
  key_count U key (w :: words) =
  if decide (lower U w = key) then S (key_count U key words)
  else key_count U key words.
Proof.
  unfold key_count. rewrite filter_cons. by case_decide.
Qed.

Lemma count_fold (m : gmap pystr nat) words key :
  foldl (λ (word_counts : gmap pystr nat) word,
           <[lower U word := (default 0 (word_counts !! lower U word) + 1)%nat]>
             word_counts) m words !! key =
  if decide (key_count U key words = 0)%nat then m !! key
  else Some (default 0 (m !! key) + key_count U key words)%nat.
Proof.
  revert m. induction words as [|w words IH]; intros m; [done|].
  cbn [foldl]. rewrite IH, key_count_cons.
  destruct (decide (lower U w = key)) as [->|Hne].
  - rewrite lookup_insert_eq. cbn [default].
    unfold id. repeat case_decide; try lia; f_equal; lia.
  - rewrite lookup_insert_ne by done. done.
Qed.

Lemma count_words_lookup words key :
  count_words U words !! key =
  if decide (key_count U key words = 0)%nat then None
  else Some (key_count U key words).
Proof.
  unfold count_words. rewrite count_fold, lookup_empty. by case_decide.
Qed.

Lemma max_count_ge words w :
  (occurrences U w words ≤ max_count (count_words U words))%nat.
Proof.
  unfold occurrences.
  destruct (decide (key_count U (lower U w) words = 0)%nat) as [->|Hne]; [lia|].
  apply max_list_elem_of_le, list_elem_of_fmap.
  exists (lower U w, key_count U (lower U w) words). split; [done|].
  apply elem_of_map_to_list. rewrite count_words_lookup. by case_decide.
Qed.


End LineFilter.


Lemma output_text_kept (st : filter_state) (line : pystr) :
  output_text (after_kept st line) = output_text st ++ line ++ [LF].
Proof.
  unfold output_text. cbn [after_kept outfile].
  rewrite map_app, concat_app. cbn. by rewrite app_nil_r.
Qed.

(** C3 (as the code behaves): a line written to the final output is
    either empty (a blank line passed through) or has at least two
    words; a line of exactly one word is never written. *)
Theorem C3_output_word_count (U : py_runtime) (input l : pystr) :
  l ∈ outfile (process_lines_streaming U input) →
  (l = [] ∨ (2 ≤ length (split l))%nat) ∧ length (split l) ≠ 1%nat.
Proof.
  intros Hl. unfold process_lines_streaming in Hl.
  apply (inv_written U _ (filter_lines_inv U _)) in Hl as [->|Hl].
  - split; [by left|done].
  - apply reaches_dedup_words in Hl. split; [by right|lia].
Qed.

Lemma C3_witness :
  str "hello world"
    ∈ outfile (process_lines_streaming ascii_runtime
                 (nl "hello world" ++ nl "one" ++ nl "hello world"))
  ∧ length (split (str "hello world")) ≠ 1%nat.
Proof.
  assert (str "hello world"
            ∈ outfile (process_lines_streaming ascii_runtime
                         (nl "hello world" ++ nl "one" ++ nl "hello world")))
    as H.
  { vm_compute. constructor. }
  split; [exact H|].
  exact (proj2 (C3_output_word_count ascii_runtime _ _ H)).
Defined.

Lemma C3_counterexample :
  ∃ l, l ∈ outfile (process_lines_streaming ascii_runtime
                      (nl "hello world" ++ nl "" ++ nl "good bye"))
       ∧ ¬ (2 ≤ length (split l))%nat.
Proof.
  exists []. split.
  - vm_compute. apply list_elem_of_further, list_elem_of_here.
  - vm_compute. lia.
Qed.

(** C6 (the code falls short of the specification): a dropped line between
    two runs of blank lines resets the counter of blank lines although
    nothing is written for it, so the two runs meet in the output.  Here
    four blank lines follow each other in the final output. *)
Theorem C6_blank_run_exceeds_cap (U : py_runtime) :
  let st := process_lines_streaming U
              (nl "a b" ++ nl "" ++ nl "" ++ nl "word" ++ nl "" ++ nl ""
               ++ nl "c d") in
  outfile st = [str "a b"; []; []; []; []; str "c d"]
  ∧ output_text st = nl "a b" ++ [LF; LF; LF; LF] ++ nl "c d"
  ∧ removed_single_word st = 1%nat.
Proof. vm_compute. done. Qed.

(** C8: a line of at least five words in which some word, compared
    case-insensitively, makes up more than 80% of the words is dropped
    and counted as spam-repetition; a line of fewer than five words is
    never counted so; the six-word line [spam spam spam spam spam word]
    is dropped. *)
Theorem C8_spam_repetition (U : py_runtime) (st : filter_state)
    (raw : pystr) :
  let words := split (strip raw) in
  (∀ w, (5 ≤ length words)%nat →
        (4 * length words < 5 * occurrences U w words)%nat →
        filter_step U st raw = after_spam st)
  ∧ ((length words < 5)%nat →
     removed_repeats (filter_step U st raw) = removed_repeats st)
  ∧ filter_step U st (nl "spam spam spam spam spam word") = after_spam st.
Proof.
  intros words. split; [|split].
  - intros w Hlen Hshare. apply filter_step_spam.
    unfold is_spam, share_exceeds_80. fold words.
    apply andb_true_iff. split; [by apply Nat.leb_le|].
    apply Nat.ltb_lt. pose proof (max_count_ge U words w). lia.
  - intros Hlen. apply filter_step_not_spam.
    unfold is_spam. fold words.
    apply andb_false_iff. left. apply Nat.leb_gt. lia.
  - apply filter_step_spam. vm_compute. reflexivity.
Qed.

Lemma C8_witness :
  let raw := nl "Spam spam SPAM spam spam word" in
  (5 ≤ length (split (strip raw)))%nat
  ∧ (4 * length (split (strip raw))
     < 5 * occurrences ascii_runtime (str "spam") (split (strip raw)))%nat
  ∧ filter_step ascii_runtime filter_init raw = after_spam filter_init.
Proof.
  intros raw.
  assert (5 ≤ length (split (strip raw)))%nat as H1
    by (vm_compute; lia).
  assert (4 * length (split (strip raw))
          < 5 * occurrences ascii_runtime (str "spam") (split (strip raw)))%nat
    as H2 by (vm_compute; lia).
  split; [exact H1|]. split; [exact H2|].
  exact (proj1 (C8_spam_repetition ascii_runtime filter_init raw)
               (str "spam") H1 H2).
Defined.

(** C9 (as the code behaves): the set [seen_lines] holds exactly the
    non-empty lines written so far, and no non-empty line is written
    twice.  A line whose trimmed text was kept before is dropped and
    counted as a duplicate; a line that reaches the duplicate check and
    was not kept before is written with a line break and added to the
    set.  Blank lines do not take part: they are written without
    entering the set. *)
Theorem C9_exact_dedup (U : py_runtime) (lines : list pystr) (raw : pystr) :
  let st := filter_lines U lines in
  let line := strip raw in
  NoDup (filter (λ l, l ≠ []) (outfile st))
  ∧ (∀ l, l ∈ seen_lines st ↔ l ∈ outfile st ∧ l ≠ [])
  ∧ (line ∈ seen_lines st → filter_step U st raw = after_duplicate st)
  ∧ (reaches_dedup U line = true → line ∉ seen_lines st →
     filter_step U st raw = after_kept st line
     ∧ output_text (after_kept st line) = output_text st ++ line ++ [LF]).
Proof.
  intros st line. pose proof (filter_lines_inv U lines) as [Hw Hs Hn].
  fold st in Hw, Hs, Hn.
  split; [exact Hn|]. split; [exact Hs|]. split.
  - intros Hseen. apply filter_step_duplicate; [|exact Hseen].
    apply Hs in Hseen as [Hout Hne].
    by destruct (Hw _ Hout).
  - intros Hr Hnew. split; [by apply filter_step_kept|].
    apply output_text_kept.
Qed.

Lemma C9_witness :
  let st := filter_lines ascii_runtime [nl "hello world"] in
  strip (nl "hello world") ∈ seen_lines st
  ∧ filter_step ascii_runtime st (nl "hello world") = after_duplicate st
  ∧ duplicate_count (after_duplicate st) = 1%nat.
Proof.
  intros st.
  assert (strip (nl "hello world") ∈ seen_lines st) as H.
  { assert (bool_decide (strip (nl "hello world") ∈ seen_lines st) = true)
      as Hb by (vm_compute; reflexivity).
    by apply bool_decide_eq_true in Hb. }
  split; [exact H|]. split; [|reflexivity].
  exact (proj1 (proj2 (proj2
           (C9_exact_dedup ascii_runtime [nl "hello world"]
                           (nl "hello world")))) H).
Defined.

Lemma C9_counterexample :
  ¬ NoDup (outfile (process_lines_streaming ascii_runtime (nl "" ++ nl ""))).
Proof.
  vm_compute. intros H. inversion H as [|? ? Hnin _]. apply Hnin. left.
Qed.

(** * The combiner *)

Section Combiner.
Variable U : py_runtime.

(** A text source that cannot be opened or decoded stays on disk and is
    not counted. *)
Lemma combine_step_text_failure st path :
  is_json_path U path = false →
  (disk st !! path = None ∨ disk st !! path = Some Unreadable
   ∨ ∃ delivered, disk st !! path = Some (Undecodable delivered)) →
  disk (combine_step U st path) = disk st
  ∧ deleted_count (combine_step U st path) = deleted_count st.
Proof.
  intros Hjson Hfile. unfold combine_step, combine_try. rewrite Hjson.
  destruct Hfile as [->|[->|[delivered ->]]]; [done|done|].
  cbn [unlink_counted outcome_state].
  generalize (file_chunks chunk_size delivered). intros chunks.
  assert (∀ o, disk (outcome_state o) = disk st
               ∧ deleted_count (outcome_state o) = deleted_count st →
               disk (outcome_state (foldl write_counted o chunks)) = disk st
               ∧ deleted_count (outcome_state (foldl write_counted o chunks))
                 = deleted_count st) as Hfold.
  { induction chunks as [|chunk chunks IH]; intros o Ho; [done|].
    cbn [foldl]. apply IH. destruct o as [s|s]; [|done].
    cbn [write_counted]. by destruct (utf8_len chunk). }
  by apply Hfold.
Qed.

(** A JSON source from which no text is extracted, whatever the reason,
    is unlinked and counted as long as the path is a file. *)
Lemma combine_step_json_no_text st path data :
  is_json_path U path = true →
  disk st !! path = Some data →
  data ≠ Directory →
  extract_text_from_json U (Some data) = [] →
  combine_step U st path =
  {| disk := delete path (disk st); combined := combined st;
     deleted_count := S (deleted_count st);
     total_bytes := total_bytes st |}.
Proof.
  intros Hjson Hfile Hdir Htext. unfold combine_step, combine_try.
  rewrite Hjson, Hfile, Htext. cbn [truthy unlink_counted]. rewrite Hfile.
  by destruct data.
Qed.

(** A directory is kept and not counted, whatever its name. *)
Lemma combine_step_directory st path :
  disk st !! path = Some Directory →
  combine_step U st path = st.
Proof.
  intros Hfile. unfold combine_step, combine_try. rewrite Hfile.
  destruct (is_json_path U path); [|done].
  cbn [extract_text_from_json truthy unlink_counted]. by rewrite Hfile.
Qed.

(** Extraction gives the empty text for every source that cannot be
    opened, decoded or parsed. *)
Lemma extract_failure data :
  match data with
  | Text content => json_loads U content = None
  | Directory | Unreadable | Undecodable _ => True
  end →
  extract_text_from_json U (Some data) = [].
Proof.
  destruct data as [| | |content]; [done|done|done|]. cbn. by intros ->.
Qed.

End Combiner.

(** C1 (the code falls short of the specification): a JSON source that
    cannot be parsed, opened or decoded is not left on disk.
    [extract_text_from_json] turns the failure into the empty text, and
    the combiner then unlinks the file and counts it as deleted although
    nothing of it was appended. *)
Theorem C1_failed_json_source_deleted :
  let st := combine_files_streaming ascii_runtime
              [str "bad.json"; str "latin1.json"; str "locked.json"]
              failing_disk in
  json_loads ascii_runtime (str "{") = None
  ∧ disk st = ∅ ∧ deleted_count st = 3%nat ∧ combined st = [].
Proof. vm_compute. done. Qed.

(** C2 (as the code behaves): for the sources of Scenario C the combined
    stream is [hello world], two line breaks, [foo bar] and a line
    break: the text file's own final line break is copied and one more
    is appended.  Both sources are deleted and counted, and neither the
    name nor the value of the [pos] field occurs in the stream. *)
Theorem C2_scenario_C :
  let st := combine_files_streaming ascii_runtime
              [str "a.txt"; str "b.json"] scenario_disk in
  combined st = nl "hello world" ++ [LF] ++ nl "foo bar"
  ∧ disk st = ∅ ∧ deleted_count st = 2%nat ∧ total_bytes st = 19%nat
  ∧ contains (str "NN") (combined st) = false
  ∧ contains (str "pos") (combined st) = false.
Proof. vm_compute. done. Qed.

Lemma C2_counterexample :
  combined (combine_files_streaming ascii_runtime
              [str "a.txt"; str "b.json"] scenario_disk)
  ≠ nl "hello world" ++ nl "foo bar".
Proof. vm_compute. intros H. discriminate H. Qed.

(** * More on the text extractor and the combiner *)

Section CombinerFacts.
Variable U : py_runtime.

Lemma join_texts_string_texts body :
  Forall text_is_string body →
  join_texts (omap record_text body) = Some (string_texts body).
Proof.
  induction 1 as [|line body Hline Hbody IH]; [done|].
  unfold string_texts in *. cbn [omap list_omap]. unfold text_is_string in Hline.
  destruct (record_text line) as [[]|]; try done.
  cbn [join_texts]. by rewrite IH.
Qed.

Lemma join_texts_strings body ts :
  join_texts (omap record_text body) = Some ts → Forall text_is_string body.
Proof.
  revert ts. induction body as [|line body IH]; intros ts H; [constructor|].
  cbn [omap list_omap] in H. unfold text_is_string at 1.
  destruct (record_text line) as [[]|] eqn:E; try discriminate H.
  - cbn [join_texts] in H.
    destruct (join_texts (omap record_text body)) eqn:E'; [|done].
    constructor; [unfold text_is_string; by rewrite E|by eapply IH].
  - constructor; [unfold text_is_string; by rewrite E|by eapply IH].
Qed.

Lemma collect_texts_body members body :
  dict_get (str "body") members = Some (JArray body) →
  collect_texts (JObject members) = Some (omap record_text body).
Proof. intros H. cbn [collect_texts]. by rewrite H. Qed.

Lemma extract_of_body content members body :
  json_loads U content = Some (JObject members) →
  dict_get (str "body") members = Some (JArray body) →
  Forall text_is_string body →
  extract_text_from_json U (Some (Text content)) = join [LF] (string_texts body).
Proof.
  intros Hload Hbody Hall. unfold extract_text_from_json.
  rewrite Hload, (collect_texts_body _ _ Hbody).
  pose proof (join_texts_string_texts body Hall) as Hjoin.
  destruct (omap record_text body) as [|t texts] eqn:E.
  - cbn in Hjoin. by injection Hjoin as <-.
  - by rewrite Hjoin.
Qed.

Lemma extract_nonempty_shape file :
  extract_text_from_json U file ≠ [] →
  ∃ content members body,
    file = Some (Text content)
    ∧ json_loads U content = Some (JObject members)
    ∧ dict_get (str "body") members = Some (JArray body)
    ∧ Forall text_is_string body
    ∧ extract_text_from_json U file = join [LF] (string_texts body).
Proof.
  intros Hne. destruct file as [[| | |content]|]; try done.
  destruct (json_loads U content) as [data|] eqn:Hload;
    [|by cbn in Hne; rewrite Hload in Hne].
  assert (∃ members body, data = JObject members
            ∧ dict_get (str "body") members = Some (JArray body)
            ∧ ∃ ts, join_texts (omap record_text body) = Some ts)
    as (members & body & -> & Hbody & ts & Hts).
  { cbn in Hne. rewrite Hload in Hne.
    destruct data as [|b|lit|t|items|members]; try done.
    - cbn in Hne. by destruct (contains _ t).
    - cbn in Hne. by destruct (existsb _ items).
    - cbn [collect_texts] in Hne.
      destruct (dict_get (str "body") members) as [[|?|?|?|body|?]|] eqn:Hb;
        try done.
      exists members, body. split; [done|]. split; [done|].
      change (omap _ body) with (omap record_text body) in Hne.
      destruct (omap record_text body) as [|t texts] eqn:E; [done|].
      destruct (join_texts (t :: texts)) as [ts|] eqn:Hj; [|done].
      by exists ts. }
  exists content, members, body.
  pose proof (join_texts_strings _ _ Hts) as Hall.
  repeat split; try done. by apply (extract_of_body content members body).
Qed.

(** *** Writing *)

Lemma utf8_len_app a b :
  utf8_len (a ++ b) =
  match utf8_len a, utf8_len b with
  | Some x, Some y => Some (x + y)%nat
  | _, _ => None
  end.
Proof.
  induction a as [|c a IH]; cbn [app utf8_len].
  { by destruct (utf8_len b). }
  rewrite IH. destruct (utf8_width c), (utf8_len a), (utf8_len b); try done.
  f_equal. lia.
Qed.

Lemma chunk_size_pos : (0 < chunk_size)%nat.
Proof. unfold chunk_size. lia. Qed.

Lemma write_chunks_done st chunks n :
  utf8_len (concat chunks) = Some n →
  foldl write_counted (Done st) chunks =
  Done {| disk := disk st; combined := combined st ++ concat chunks;
          deleted_count := deleted_count st;
          total_bytes := total_bytes st + n |}.
Proof.
  revert st n. induction chunks as [|c chunks IH]; intros st n Hn.
  { cbn in *. injection Hn as <-. destruct st. cbn.
    by rewrite app_nil_r, Nat.add_0_r. }
  cbn [concat] in Hn. rewrite utf8_len_app in Hn.
  destruct (utf8_len c) as [a|] eqn:Ha; [|done].
  destruct (utf8_len (concat chunks)) as [b|] eqn:Hb; [|done].
  injection Hn as <-. cbn [foldl write_counted]. rewrite Ha.
  rewrite (IH _ b eq_refl). cbn. by rewrite app_assoc, Nat.add_assoc.
Qed.

End CombinerFacts.

Section CombinerRun.
Variable U : py_runtime.

Lemma write_counted_keeps st o text :
  keeps st o → keeps st (write_counted o text).
Proof.
  destruct o as [s|s]; [|done]. cbn [write_counted].
  by destruct (utf8_len text).
Qed.

Lemma write_newline_keeps st o : keeps st o → keeps st (write_newline o).
Proof. by destruct o. Qed.

Lemma write_fold_keeps st chunks o :
  keeps st o → keeps st (foldl write_counted o chunks).
Proof.
  revert o. induction chunks as [|c chunks IH]; intros o Ho; [done|].
  cbn [foldl]. by apply IH, write_counted_keeps.
Qed.

Lemma write_counted_bytes k o text :
  bytes_counted k (outcome_state o) →
  bytes_counted k (outcome_state (write_counted o text)).
Proof.
  destruct o as [s|s]; [|done]. cbn [write_counted outcome_state].
  destruct (utf8_len text) as [n|] eqn:Hn; [|done].
  unfold bytes_counted. cbn. intros H. rewrite utf8_len_app, H, Hn.
  f_equal. lia.
Qed.

Lemma write_fold_bytes k chunks o :
  bytes_counted k (outcome_state o) →
  bytes_counted k (outcome_state (foldl write_counted o chunks)).
Proof.
  revert o. induction chunks as [|c chunks IH]; intros o Ho; [done|].
  cbn [foldl]. by apply IH, write_counted_bytes.
Qed.

Lemma write_newline_bytes k o :
  bytes_counted k (outcome_state o) →
  bytes_counted k (outcome_state (write_newline o))
  ∨ bytes_counted (S k) (outcome_state (write_newline o)).
Proof.
  intros H. destruct o as [s|s]; [|by left]. right.
  unfold bytes_counted in *. cbn in *. rewrite utf8_len_app, H. cbn.
  f_equal. lia.
Qed.

(** The [try] body writes, then unlinks. *)
Lemma combine_try_written st path :
  ∃ written,
    combine_try U st path = unlink_counted path written
    ∧ keeps st written
    ∧ ∀ k, bytes_counted k st →
           bytes_counted k (outcome_state written)
           ∨ bytes_counted (S k) (outcome_state written).
Proof.
  unfold combine_try. eexists. split; [reflexivity|].
  destruct (is_json_path U path).
  - destruct (truthy _); [|by split; [|left]]. split.
    + by apply write_newline_keeps, write_counted_keeps.
    + intros k Hk. by apply write_newline_bytes, write_counted_bytes.
  - destruct (disk st !! path) as [[| |delivered|content]|];
      [by split; [|left]|by split; [|left]| | |by split; [|left]].
    + split; [by apply (write_fold_keeps st _ (Done st))|].
      intros k Hk. left. by apply (write_fold_bytes k _ (Done st)).
    + split; [by apply write_newline_keeps, write_fold_keeps|].
      intros k Hk. by apply write_newline_bytes, write_fold_bytes.
Qed.

(** One iteration either leaves the disk alone or removes exactly the
    file it was given, which it then counts. *)
Lemma combine_step_cases st path :
  let st' := combine_step U st path in
  ((disk st' = disk st ∧ deleted_count st' = deleted_count st)
   ∨ (is_Some (disk st !! path) ∧ disk st' = delete path (disk st)
      ∧ deleted_count st' = S (deleted_count st)))
  ∧ ∀ k, bytes_counted k st → bytes_counted k st' ∨ bytes_counted (S k) st'.
Proof.
  intros st'. subst st'. unfold combine_step.
  destruct (combine_try_written st path) as (written & -> & [Hd Hc] & Hb).
  destruct written as [s|s]; cbn [unlink_counted outcome_state] in *.
  - destruct (disk s !! path) as [data|] eqn:Hfile; cbn [outcome_state].
    + destruct data; cbn [outcome_state]; [by split; [left|exact Hb]| | |];
        (split; [right|exact Hb]); rewrite <- Hd; cbn; by rewrite Hfile, Hc.
    + split; [by left|exact Hb].
  - split; [by left|exact Hb].
Qed.

Lemma map_size_delete_present (m : gmap pystr file_data) path :
  is_Some (m !! path) → S (size (delete path m)) = size m.
Proof.
  intros Hsome. rewrite map_size_delete_Some by done.
  destruct (size m) eqn:E; [|done].
  apply map_size_empty_inv in E as ->. rewrite lookup_empty in Hsome.
  by destruct Hsome.
Qed.

Lemma combine_fold_accounting files st :
  let st' := foldl (combine_step U) st files in
  disk st' ⊆ disk st
  ∧ (size (disk st') + deleted_count st' = size (disk st) + deleted_count st)%nat
  ∧ (deleted_count st' ≤ deleted_count st + length files)%nat
  ∧ ∀ p, p ∉ files → disk st' !! p = disk st !! p.
Proof.
  revert st. induction files as [|path files IH]; intros st; cbn [foldl].
  { cbn. repeat split; try done. lia. }
  destruct (IH (combine_step U st path)) as (Hsub & Hsize & Hcount & Hother).
  destruct (combine_step_cases st path)
    as [[[Hd Hc]|(Hsome & Hd & Hc)] _]; cbn zeta in *.
  - rewrite Hd, Hc in *. repeat split; try done.
    + cbn [length]. lia.
    + intros p [_ Hp]%not_elem_of_cons. by apply Hother.
  - rewrite Hd, Hc in *.
    pose proof (map_size_delete_present (disk st) path Hsome).
    repeat split.
    + etrans; [exact Hsub|apply delete_subseteq].
    + lia.
    + cbn [length]. lia.
    + intros p [Hne Hp]%not_elem_of_cons.
      rewrite (Hother p Hp). by apply lookup_delete_ne.
Qed.

(** A source that can be read is written whole and then removed. *)
Lemma combine_step_ok st path :
  source_ok U (disk st) path →
  let st' := combine_step U st path in
  disk st' = delete path (disk st)
  ∧ combined st' = combined st ++ source_text U (disk st) path
  ∧ deleted_count st' = S (deleted_count st).
Proof.
  unfold source_ok, source_text, combine_step, combine_try.
  destruct (is_json_path U path).
  - intros (content & Hfile & [n Hn]). rewrite Hfile in *.
    destruct (truthy _).
    + cbn [write_counted]. rewrite Hn. cbn. rewrite Hfile. cbn.
      by rewrite <- app_assoc.
    + cbn. rewrite Hfile. cbn. by rewrite app_nil_r.
  - intros (content & Hfile & [n Hn]). rewrite Hfile.
    rewrite (write_chunks_done st _ n)
      by (by rewrite file_chunks_concat by apply chunk_size_pos).
    rewrite file_chunks_concat by apply chunk_size_pos.
    cbn. rewrite Hfile. cbn. by rewrite <- app_assoc.
Qed.

Lemma source_ok_ext fs1 fs2 path :
  fs1 !! path = fs2 !! path → source_ok U fs1 path → source_ok U fs2 path.
Proof. unfold source_ok. by intros ->. Qed.

Lemma source_text_ext fs1 fs2 path :
  fs1 !! path = fs2 !! path → source_text U fs1 path = source_text U fs2 path.
Proof. unfold source_text. by intros ->. Qed.


(** A text source that fails is neither removed nor counted. *)
Lemma combine_fold_failing files st path :
  is_json_path U path = false →
  (disk st !! path = Some Unreadable
   ∨ ∃ delivered, disk st !! path = Some (Undecodable delivered)) →
  let st' := foldl (combine_step U) st files in
  disk st' !! path = disk st !! path
  ∧ (deleted_count st'
     ≤ deleted_count st + length (filter (λ p, p ≠ path) files))%nat.
Proof.
  intros Hjson. revert st. induction files as [|p files IH]; intros st Hfile.
  { cbn. split; [done|lia]. }
  cbn [foldl]. cbn zeta. rewrite filter_cons.
  destruct (decide (p = path)) as [->|Hne].
  - destruct (combine_step_text_failure U st path Hjson) as [Hd Hc].
    { destruct Hfile as [?|?]; [by right; left|by right; right]. }
    destruct (IH (combine_step U st path)) as [Hd' Hc'];
      [by rewrite Hd|].
    rewrite decide_False by (by intros ?).
    rewrite Hd', Hd. split; [done|]. cbn zeta in Hc'. lia.
  - assert (disk (combine_step U st p) !! path = disk st !! path) as Hsame.
    { destruct (combine_step_cases st p) as [[[-> _]|(_ & -> & _)] _];
        [done|by apply lookup_delete_ne]. }
    destruct (IH (combine_step U st p)) as [Hd' Hc']; [by rewrite Hsame|].
    rewrite decide_True by done. cbn [length]. cbn zeta in Hc'.
    rewrite Hd', Hsame. split; [done|].
    destruct (combine_step_cases st p) as [[[_ Hc]|(_ & _ & Hc)] _];
      cbn zeta in Hc; lia.
Qed.

(** A directory in the list is neither removed nor counted. *)
Lemma combine_fold_directory files st path :
  disk st !! path = Some Directory →
  let st' := foldl (combine_step U) st files in
  disk st' !! path = Some Directory
  ∧ (deleted_count st'
     ≤ deleted_count st + length (filter (λ p, p ≠ path) files))%nat.
Proof.
  revert st. induction files as [|p files IH]; intros st Hfile.
  { cbn. split; [done|lia]. }
  cbn [foldl]. cbn zeta. rewrite filter_cons.
  destruct (decide (p = path)) as [->|Hne].
  - rewrite (combine_step_directory U st path Hfile).
    rewrite decide_False by (by intros ?). by apply IH.
  - assert (disk (combine_step U st p) !! path = disk st !! path) as Hsame.
    { destruct (combine_step_cases st p) as [[[-> _]|(_ & -> & _)] _];
        [done|by apply lookup_delete_ne]. }
    destruct (IH (combine_step U st p)) as [Hd' Hc']; [by rewrite Hsame|].
    rewrite decide_True by done. cbn [length]. cbn zeta in Hc'.
    split; [done|].
    destruct (combine_step_cases st p) as [[[_ Hc]|(_ & _ & Hc)] _];
      cbn zeta in Hc; lia.
Qed.

(** *** Bytes counted and line breaks appended *)

Lemma unlink_counted_bytes k path o :
  bytes_counted k (outcome_state o) →
  bytes_counted k (outcome_state (unlink_counted path o)).
Proof.
  destruct o as [s|s]; [|done]. cbn [unlink_counted].
  by destruct (disk s !! path) as [[]|].
Qed.

(** Once a chunk cannot be encoded the rest of the [try] body is
    skipped. *)
Lemma write_fold_raised chunks o :
  (∃ s, o = Raised s) ∨ utf8_len (concat chunks) = None →
  ∃ s, foldl write_counted o chunks = Raised s.
Proof.
  revert o. induction chunks as [|c chunks IH]; intros o H.
  { destruct H as [H|H]; [done|discriminate H]. }
  cbn [foldl]. apply IH. destruct o as [s|s]; [|left; by exists s].
  destruct H as [[s' H]|H]; [discriminate H|].
  cbn [concat] in H. rewrite utf8_len_app in H. cbn [write_counted].
  destruct (utf8_len c); [|left; by eexists].
  right. by destruct (utf8_len (concat chunks)).
Qed.

Lemma write_newline_done k st :
  bytes_counted k st →
  bytes_counted (k + 1) (outcome_state (write_newline (Done st))).
Proof.
  unfold bytes_counted. cbn. intros H. rewrite utf8_len_app, H. cbn.
  f_equal. lia.
Qed.

(** One iteration leaves the stream ahead of [total_bytes] by one more
    byte exactly when it appends its line break. *)
Lemma combine_step_breaks st path k :
  bytes_counted k st →
  bytes_counted (k + (if writes_break U st path then 1 else 0))
                (combine_step U st path).
Proof.
  intros Hk. unfold combine_step, combine_try, writes_break.
  apply unlink_counted_bytes. destruct (is_json_path U path).
  - cbn zeta. destruct (truthy _); cbn [andb]; [|by rewrite Nat.add_0_r].
    pose proof (write_counted_bytes k (Done st)
                  (extract_text_from_json U (disk st !! path)) Hk) as Hw.
    cbn [write_counted] in *.
    destruct (utf8_len (extract_text_from_json U (disk st !! path)))
      as [n|].
    + rewrite bool_decide_eq_true_2 by eauto. by apply write_newline_done.
    + rewrite bool_decide_eq_false_2 by (by intros [? ?]).
      by rewrite Nat.add_0_r.
  - destruct (disk st !! path) as [[| |delivered|content]|];
      rewrite ?Nat.add_0_r; try done.
    + cbn [outcome_state]. by apply (write_fold_bytes k _ (Done st)).
    + pose proof (file_chunks_concat chunk_size content chunk_size_pos)
        as Hchunks.
      pose proof (write_fold_bytes k (file_chunks chunk_size content)
                    (Done st) Hk) as Hw.
      destruct (utf8_len content) as [n|] eqn:Hn.
      * rewrite bool_decide_eq_true_2 by eauto.
        rewrite (write_chunks_done st _ n) in * by (by rewrite Hchunks).
        by apply write_newline_done.
      * rewrite bool_decide_eq_false_2 by (by intros [? ?]).
        destruct (write_fold_raised (file_chunks chunk_size content)
                    (Done st)) as [s Hs]; [right; by rewrite Hchunks|].
        rewrite Hs in *. by rewrite Nat.add_0_r.
Qed.

Lemma combine_fold_breaks files st k :
  bytes_counted k st →
  bytes_counted (k + breaks_from U st files)
                (foldl (combine_step U) st files).
Proof.
  revert st k. induction files as [|p files IH]; intros st k Hk.
  { cbn. by rewrite Nat.add_0_r. }
  cbn [foldl breaks_from]. rewrite Nat.add_assoc.
  by apply IH, combine_step_breaks.
Qed.

Lemma breaks_from_bound files st :
  (breaks_from U st files ≤ length files)%nat.
Proof.
  revert st. induction files as [|p files IH]; intros st; [done|].
  cbn [breaks_from length]. specialize (IH (combine_step U st p)).
  destruct (writes_break U st p); lia.
Qed.

(** For a readable source the line break is appended exactly when
    something is written for it. *)
Lemma writes_break_ok st path :
  source_ok U (disk st) path →
  writes_break U st path
  = bool_decide (source_text U (disk st) path ≠ []).
Proof.
  unfold source_ok, writes_break, source_text.
  intros (content & Hfile & Hn). rewrite Hfile.
  destruct (is_json_path U path).
  - cbn zeta. rewrite (bool_decide_eq_true_2 _ Hn), andb_true_r.
    destruct (extract_text_from_json U (Some (Text content))); [done|].
    cbn [truthy app]. by rewrite bool_decide_eq_true_2.
  - rewrite (bool_decide_eq_true_2 _ Hn).
    rewrite bool_decide_eq_true_2; [done|]. by destruct content.
Qed.

Lemma filter_agree (P Q : pystr → Prop) `{!∀ x, Decision (P x)}
    `{!∀ x, Decision (Q x)} (l : list pystr) :
  (∀ x, x ∈ l → P x ↔ Q x) → filter P l = filter Q l.
Proof.
  induction l as [|x l IH]; intros Hagree; [done|].
  rewrite !filter_cons, IH by (intros y Hy; apply Hagree; by right).
  pose proof (Hagree x (list_elem_of_here x l)).
  repeat case_decide; tauto.
Qed.

Lemma breaks_from_ok files st :
  NoDup files → Forall (source_ok U (disk st)) files →
  breaks_from U st files
  = length (filter (λ p, source_text U (disk st) p ≠ []) files).
Proof.
  revert st. induction files as [|path files IH]; intros st Hnd Hall.
  { done. }
  apply NoDup_cons in Hnd as [Hfresh Hnd].
  apply Forall_cons in Hall as [Hpath Hall].
  destruct (combine_step_ok st path Hpath) as (Hd & _ & _).
  cbn zeta in Hd.
  assert (∀ q, q ∈ files →
            disk (combine_step U st path) !! q = disk st !! q) as Hsame.
  { intros q Hq. rewrite Hd. apply lookup_delete_ne. by intros ->. }
  cbn [breaks_from]. rewrite IH, (writes_break_ok st path Hpath); [|done|].
  2:{ apply Forall_forall. intros q Hq.
      apply (source_ok_ext (disk st)); [by rewrite Hsame|].
      by apply (proj1 (Forall_forall _ _) Hall). }
  rewrite filter_cons.
  assert (filter (λ p, source_text U (disk (combine_step U st path)) p ≠ [])
                 files
          = filter (λ p, source_text U (disk st) p ≠ []) files) as ->.
  { apply filter_agree. intros q Hq.
    by rewrite (source_text_ext _ (disk st) q (Hsame q Hq)). }
  case_bool_decide; case_decide; try done.
Qed.

End CombinerRun.

(** * More on the character sanitizer *)

Section SanitizerFacts.
Variable U : py_runtime.

(** *** Lengths *)

Lemma join_size sep parts :
  length (join [sep] parts) = pred (joined_size parts).
Proof.
  unfold joined_size. induction parts as [|p [|q parts] IH]; [done| |].
  - cbn. lia.
  - rewrite join_cons2, !length_app, IH. cbn. lia.
Qed.

Lemma split_on_size sep s : joined_size (split_on sep s) = S (length s).
Proof.
  unfold joined_size. induction s as [|c rest IH]; [done|].
  rewrite split_on_cons. destruct (c =? sep).
  { cbn [map sum_list_with length]. cbn in *. lia. }
  destruct (split_on sep rest) as [|f fs]; cbn in *; lia.
Qed.

Lemma split_size s :
  (joined_size (split s) ≤ S (length s))%nat
  ∧ (match s with
     | c :: _ => is_space c = true → (joined_size (split s) ≤ length s)%nat
     | [] => True
     end).
Proof.
  unfold joined_size. induction s as [|c rest [IH1 IH2]]; [cbn; split; [lia|done]|].
  rewrite split_cons. destruct (is_space c) eqn:Hc.
  { cbn [length]. split; [lia|]. intros _. lia. }
  split; [|done]. destruct rest as [|d rest']; [cbn; lia|].
  destruct (is_space d) eqn:Hd.
  { specialize (IH2 eq_refl). set (rest_tokens := split (d :: rest')) in *.
    cbn in *. lia. }
  destruct (split (d :: rest')) as [|w ws]; cbn in *; lia.
Qed.

Lemma dedup_loop_size prev tokens :
  (joined_size (dedup_loop U prev tokens) ≤ joined_size tokens)%nat.
Proof.
  unfold joined_size. revert prev.
  induction tokens as [|t tokens IH]; intros prev; [done|].
  rewrite dedup_loop_cons.
  destruct (match prev with Some p => _ | None => false end).
  - specialize (IH prev). cbn. lia.
  - specialize (IH (Some t)). cbn. lia.
Qed.

Lemma dedup_line_length line :
  (length (dedup_line U line) ≤ length line)%nat.
Proof.
  rewrite dedup_line_join, join_size.
  pose proof (dedup_loop_size None (split line)).
  pose proof (proj1 (split_size line)). lia.
Qed.

Lemma joined_size_map (f : pystr → pystr) parts :
  (∀ p, (length (f p) ≤ length p)%nat) →
  (joined_size (map f parts) ≤ joined_size parts)%nat.
Proof.
  intros Hf. unfold joined_size.
  induction parts as [|p parts IH]; [done|].
  specialize (Hf p). cbn. lia.
Qed.

Lemma sub_bounded_word_length word prev skip s :
  (length (sub_bounded_word U word prev skip s) ≤ length s)%nat.
Proof.
  revert prev skip. induction s as [|c rest IH]; intros prev skip; [done|].
  cbn [sub_bounded_word]. destruct skip as [|k].
  - destruct (_ && _ && _).
    + specialize (IH (Some c) (length word - 1)%nat). cbn. lia.
    + specialize (IH (Some c) 0%nat). cbn. lia.
  - specialize (IH (Some c) k). cbn. lia.
Qed.

Lemma keep_allowed_length chunk :
  (length (keep_allowed chunk) ≤ length chunk)%nat.
Proof.
  unfold keep_allowed. induction chunk as [|c chunk IH]; [done|].
  cbn. destruct (allowed_char c); cbn; lia.
Qed.

Lemma clean_chunk_length chunk :
  (length (clean_chunk U chunk) ≤ length chunk)%nat.
Proof.
  rewrite clean_chunk_unfold, join_size.
  pose proof (joined_size_map (dedup_line U)
                (split_on LF (keep_allowed (remove_metadata U chunk)))
                dedup_line_length) as H1.
  rewrite split_on_size in H1.
  pose proof (keep_allowed_length (remove_metadata U chunk)) as H2.
  assert (length (remove_metadata U chunk) ≤ length chunk)%nat as H3.
  { unfold remove_metadata, metadata_patterns. cbn [foldl].
    apply sub_bounded_word_length. }
  lia.
Qed.

Lemma clean_fold_counters r chunks :
  let r' := foldl (clean_step U) r chunks in
  original_chars r' = (original_chars r + length (concat chunks))%nat
  ∧ cleaned_chars r'
    = (cleaned_chars r + length (concat (map (clean_chunk U) chunks)))%nat.
Proof.
  revert r. induction chunks as [|c chunks IH]; intros r.
  { cbn. split; lia. }
  cbn [foldl map concat]. destruct (IH (clean_step U r c)) as [H1 H2].
  cbn zeta in *. rewrite H1, H2, !length_app. cbn. split; lia.
Qed.

Lemma concat_le (f : pystr → pystr) chunks :
  (∀ c, (length (f c) ≤ length c)%nat) →
  (length (concat (map f chunks)) ≤ length (concat chunks))%nat.
Proof.
  intros Hf. induction chunks as [|c chunks IH]; [done|].
  cbn. rewrite !length_app. specialize (Hf c). lia.
Qed.

(** *** Line breaks *)

Lemma line_breaks_cons c s :
  line_breaks (c :: s) =
  if decide (c = LF) then S (line_breaks s) else line_breaks s.
Proof. unfold line_breaks. rewrite filter_cons. by case_decide. Qed.

Lemma line_breaks_app a b :
  line_breaks (a ++ b) = (line_breaks a + line_breaks b)%nat.
Proof. unfold line_breaks. by rewrite filter_app, length_app. Qed.

Lemma split_on_count s : length (split_on LF s) = S (line_breaks s).
Proof.
  induction s as [|c rest IH]; [done|].
  rewrite split_on_cons, line_breaks_cons.
  destruct (N.eqb_spec c LF) as [->|Hc].
  - rewrite decide_True by done. cbn. by rewrite IH.
  - rewrite decide_False by done.
    destruct (split_on LF rest); [done|]. exact IH.
Qed.

Lemma starts_with_cons x w s :
  starts_with (x :: w) s = true → ∃ s', s = x :: s' ∧ starts_with w s' = true.
Proof.
  destruct s as [|c s']; [done|]. cbn.
  intros [->%N.eqb_eq H]%andb_prop. by exists s'.
Qed.

Lemma sub_bounded_word_breaks word w' prev s :
  word ≠ [] → LF ∉ word → LF ∉ w' → starts_with w' s = true →
  line_breaks (sub_bounded_word U word prev (length w') s) = line_breaks s.
Proof.
  intros Hne Hword. revert prev w'.
  induction s as [|c rest IH]; intros prev w' Hw' Hs; [done|].
  cbn [sub_bounded_word]. destruct w' as [|x w''].
  - cbn [length]. destruct (_ && _ && _) eqn:Hcond.
    + apply andb_prop in Hcond as [[_ Hstart]%andb_prop _].
      destruct word as [|y word'']; [done|].
      apply starts_with_cons in Hstart as (s' & [= <- <-] & Hstart).
      replace (length (c :: word'') - 1)%nat with (length word'')
        by (cbn [length]; lia).
      rewrite (IH _ word''); [|by intros ?; apply Hword; right|done].
      rewrite line_breaks_cons, decide_False; [done|].
      intros ->. apply Hword. left.
    + rewrite !line_breaks_cons, (IH _ []); [done|by intros H; inversion H|done].
  - apply starts_with_cons in Hs as (s' & [= <- <-] & Hs).
    cbn [length]. rewrite (IH _ w''); [|by intros ?; apply Hw'; right|done].
    rewrite line_breaks_cons, decide_False; [done|].
    intros ->. apply Hw'. left.
Qed.

Lemma gutenberg_no_newline : LF ∉ str "gutenberg".
Proof. rewrite list_elem_of_In. cbn. unfold LF. lia. Qed.

Lemma remove_metadata_breaks chunk :
  line_breaks (remove_metadata U chunk) = line_breaks chunk.
Proof.
  unfold remove_metadata, metadata_patterns. cbn [foldl].
  apply (sub_bounded_word_breaks _ []);
    [done|apply gutenberg_no_newline|by intros H; inversion H|done].
Qed.

Lemma keep_allowed_breaks chunk :
  line_breaks (keep_allowed chunk) = line_breaks chunk.
Proof.
  unfold keep_allowed. induction chunk as [|c chunk IH]; [done|].
  cbn [List.filter]. destruct (decide (c = LF)) as [->|Hc].
  - change (allowed_char LF) with true. cbn iota.
    by rewrite !line_breaks_cons, IH.
  - rewrite (line_breaks_cons c chunk), decide_False by done.
    destruct (allowed_char c); [|done].
    by rewrite line_breaks_cons, decide_False, IH.
Qed.

Lemma clean_chunk_breaks chunk :
  line_breaks (clean_chunk U chunk) = line_breaks chunk.
Proof.
  pose proof (split_on_count (clean_chunk U chunk)) as H.
  rewrite clean_chunk_lines, length_map, split_on_count in H.
  rewrite keep_allowed_breaks, remove_metadata_breaks in H. lia.
Qed.

Lemma concat_breaks (f : pystr → pystr) chunks :
  (∀ c, line_breaks (f c) = line_breaks c) →
  line_breaks (concat (map f chunks)) = line_breaks (concat chunks).
Proof.
  intros Hf. induction chunks as [|c chunks IH]; [done|].
  cbn [map concat]. by rewrite !line_breaks_app, Hf, IH.
Qed.

(** *** A fixed point *)

Lemma sub_bounded_word_absent word prev s :
  contains word s = false → sub_bounded_word U word prev 0 s = s.
Proof.
  revert prev. induction s as [|c rest IH]; intros prev H; [done|].
  cbn [contains] in H. apply orb_false_iff in H as [Hstart Hrest].
  cbn [sub_bounded_word]. rewrite Hstart, andb_false_r. cbn [andb].
  by rewrite IH.
Qed.

Lemma remove_metadata_absent chunk :
  contains (str "gutenberg") chunk = false → remove_metadata U chunk = chunk.
Proof.
  unfold remove_metadata, metadata_patterns. cbn [foldl].
  apply sub_bounded_word_absent.
Qed.

Lemma clean_alphabet_allowed c :
  in_clean_alphabet c = true → allowed_char c = true.
Proof.
  intros [H|[->|[->|[->|[->|[->| ->]]]]]]%in_clean_alphabet_spec; try done.
  unfold allowed_char. by rewrite H.
Qed.

Lemma keep_allowed_fixed s :
  (∀ c, c ∈ s → allowed_char c = true) → keep_allowed s = s.
Proof.
  unfold keep_allowed. induction s as [|c s IH]; intros H; [done|].
  cbn. rewrite (H c) by left. f_equal. apply IH. intros d Hd. apply H. by right.
Qed.

Lemma clean_chunk_no_double_space chunk :
  no_double_space (clean_chunk U chunk) = true.
Proof.
  rewrite clean_chunk_unfold.
  apply join_lines_no_double_space, Forall_map, Forall_forall.
  intros l _. apply dedup_line_no_double_space.
Qed.

Lemma clean_chunk_fixed chunk :
  contains (str "gutenberg") (clean_chunk U chunk) = false →
  clean_chunk U (clean_chunk U chunk) = clean_chunk U chunk.
Proof.
  intros Hfree. unfold clean_chunk at 1.
  rewrite (remove_metadata_absent _ Hfree).
  rewrite keep_allowed_fixed.
  2:{ intros c [Hc _]%clean_chunk_alphabet. by apply clean_alphabet_allowed. }
  fold (dedup_text U (clean_chunk U chunk)).
  rewrite clean_chunk_dedup_text.
  apply collapse_spaces_fixed, clean_chunk_no_double_space.
Qed.

(** *** Spaces *)

Lemma spaces_between_weaken p s :
  spaces_between false s = true → spaces_between p s = true.
Proof.
  destruct s as [|c rest]; [done|]. cbn [spaces_between].
  by destruct (c =? SP).
Qed.

Lemma spaces_between_app p a b :
  spaces_between p a = true → spaces_between false b = true →
  spaces_between p (a ++ b) = true.
Proof.
  revert p. induction a as [|c a IH]; intros p Ha Hb.
  { by apply spaces_between_weaken. }
  cbn [app spaces_between] in *. destruct (c =? SP).
  - apply andb_prop in Ha as [[Hp Hnext]%andb_prop Ha].
    destruct a as [|d a']; [done|]. cbn [app].
    rewrite Hp, Hnext. cbn [andb]. by apply IH.
  - by apply IH.
Qed.

Lemma spaces_between_token p t s :
  token_ok t → spaces_between p (t ++ s) = spaces_between true s.
Proof.
  intros [Hne Hall]. revert p.
  induction t as [|c t IH]; intros p; [done|].
  apply Forall_cons in Hall as [Hc Hall].
  cbn [app spaces_between]. destruct (nonspace_neq c Hc) as [Hsp _].
  destruct (N.eqb_spec c SP); [done|]. rewrite Hc. cbn [negb].
  destruct t as [|c' t']; [done|]. by apply IH.
Qed.

Lemma join_tokens_spaces p tokens :
  Forall token_ok tokens → spaces_between p (join [SP] tokens) = true.
Proof.
  intros Hall. revert p.
  induction Hall as [|t ts Ht Hts IH]; intros p; [done|].
  destruct ts as [|t2 ts].
  - cbn [join]. rewrite <- (app_nil_r t). by rewrite spaces_between_token.
  - rewrite join_cons2, spaces_between_token by done.
    inversion Hts as [|? ? Ht2 _]; subst.
    destruct (join_tokens_head t2 ts Ht2) as (x & r & E & Hx).
    cbn [app spaces_between]. rewrite N.eqb_refl, (IH false), E, Hx. done.
Qed.

Lemma join_lines_spaces p lines :
  Forall (λ l, ∀ q, spaces_between q l = true) lines →
  spaces_between p (join [LF] lines) = true.
Proof.
  intros Hall. revert p.
  induction Hall as [|l ls Hl Hls IH]; intros p; [done|].
  destruct ls as [|l2 ls]; [by apply Hl|].
  rewrite join_cons2. apply spaces_between_app; [by apply Hl|].
  cbn [app spaces_between]. by apply (IH false).
Qed.

Lemma clean_chunk_spaces chunk :
  spaces_between false (clean_chunk U chunk) = true.
Proof.
  rewrite clean_chunk_unfold. apply join_lines_spaces.
  apply Forall_map, Forall_forall. intros l _ q.
  rewrite dedup_line_join. apply join_tokens_spaces, dedup_tokens_ok.
Qed.

Lemma concat_spaces chunks :
  Forall (λ c, spaces_between false c = true) chunks →
  spaces_between false (concat chunks) = true.
Proof.
  induction 1 as [|c chunks Hc Hchunks IH]; [done|].
  cbn [concat]. by apply spaces_between_app.
Qed.

(** *** The letters of the class *)

Lemma letter_not_space c : is_letter_az c = true → is_space c = false.
Proof.
  intros H%letter_az_range. destruct (is_space c) eqn:E; [|done].
  unfold is_space in E.
  rewrite !orb_true_iff, !andb_true_iff, !N.leb_le, !N.eqb_eq in E. lia.
Qed.

Lemma allowed_char_spec c :
  allowed_char c = true ↔
  (97 ≤ c ≤ 122 ∨ 65 ≤ c ≤ 90) ∨ is_space c = true
  ∨ c = 46 ∨ c = 44 ∨ c = 33 ∨ c = 63.
Proof.
  unfold allowed_char.
  rewrite !orb_true_iff, !N.eqb_eq, letter_az_range. split; [|tauto].
  intros [[[[[[H|H]|H]|H]|H]|H]|H]; try tauto.
  right. left. by rewrite H.
Qed.

(** A word of ASCII letters passes every step of the loop body
    unchanged, unless it is [gutenberg]. *)
Lemma clean_chunk_word word :
  word ≠ [] → (∀ c, c ∈ word → is_letter_az c = true) →
  contains (str "gutenberg") word = false →
  clean_chunk U word = word.
Proof.
  intros Hne Hletters Hfree.
  rewrite clean_chunk_unfold, (remove_metadata_absent _ Hfree).
  rewrite keep_allowed_fixed.
  2:{ intros c Hc. unfold allowed_char. by rewrite (Hletters c Hc). }
  rewrite split_on_single by (by intros H%Hletters).
  assert (split word = [word]) as Hsplit.
  { apply (split_join [word]).
    constructor; [|constructor]. split; [done|].
    apply Forall_forall. intros c Hc. by apply letter_not_space, Hletters. }
  cbn [map]. unfold dedup_line. rewrite Hsplit. cbn [dedup_loop].
  by rewrite bool_decide_eq_false_2.
Qed.

End SanitizerFacts.

(** C10: the letters the sanitizer keeps are exactly the ASCII ranges
    a-z and A-Z.  The class of the substitution consists of these two
    ranges, whitespace and [. , ! ?], and the substitution keeps the
    characters of the class and no others; a word of ASCII letters
    (other than the metadata word) comes out of the sanitizer as it
    went in.  A code point from 128 on that is not whitespace is
    outside the class, and no code point from 128 on (so no accented
    or other non-ASCII letter) occurs in the sanitized output. *)
Theorem C10_non_ascii_removed (U : py_runtime) (input : pystr) (c : N) :
  (allowed_char c = true ↔
     (97 ≤ c ≤ 122 ∨ 65 ≤ c ≤ 90) ∨ is_space c = true
     ∨ c = 46 ∨ c = 44 ∨ c = 33 ∨ c = 63)
  ∧ (c ∈ keep_allowed input ↔ c ∈ input ∧ allowed_char c = true)
  ∧ (∀ word,
       word ≠ [] → (∀ d, d ∈ word → 97 ≤ d ≤ 122 ∨ 65 ≤ d ≤ 90) →
       contains (str "gutenberg") word = false →
       (length word ≤ chunk_size)%nat →
       cleaned_file (clean_text_streaming U word) = word)
  ∧ (128 ≤ c →
     (is_space c = false → allowed_char c = false)
     ∧ (c ∉ cleaned_file (clean_text_streaming U input))).
Proof.
  split; [apply allowed_char_spec|].
  split; [apply keep_allowed_chars|]. split.
  - intros word Hne Hletters Hfree Hlen.
    rewrite (cleaned_file_short U word Hlen).
    destruct word as [|d word]; [done|].
    apply clean_chunk_word; [done| |done].
    intros x Hx. by apply letter_az_range, Hletters.
  - intros Hc. split.
    + intros Hs. destruct (allowed_char c) eqn:Ha; [|done].
      destruct (allowed_nonspace_alphabet c Ha Hs) as [_ Hascii].
      unfold is_ascii in Hascii. apply N.ltb_lt in Hascii. lia.
    + intros [_ Hascii]%cleaned_file_alphabet.
      unfold is_ascii in Hascii. apply N.ltb_lt in Hascii. lia.
Qed.

Lemma C10_witness :
  let input := [99; 97; 102; 233; 32; 90; 111; 235] in
  128 ≤ 233
  ∧ (233 ∉ cleaned_file (clean_text_streaming ascii_runtime input))
  ∧ (233 ∉ keep_allowed input)
  ∧ 90 ∈ keep_allowed input
  ∧ cleaned_file (clean_text_streaming ascii_runtime (str "Zo")) = str "Zo".
Proof.
  intros input.
  pose proof (C10_non_ascii_removed ascii_runtime input 233)
    as (_ & Hkeep & _ & Hgone).
  pose proof (C10_non_ascii_removed ascii_runtime input 90)
    as (_ & Hkept & Hword & _).
  assert (128 ≤ 233) as H by lia.
  split; [exact H|]. split; [exact (proj2 (Hgone H))|]. split; [|split].
  - intros [_ Ha]%Hkeep. vm_compute in Ha. discriminate Ha.
  - apply Hkept. split; [|reflexivity].
    unfold input. do 5 apply list_elem_of_further. apply list_elem_of_here.
  - apply Hword.
    + discriminate.
    + intros d Hd. unfold str in Hd. cbn in Hd.
      apply elem_of_cons in Hd as [->|Hd]; [lia|].
      apply list_elem_of_singleton in Hd as ->. lia.
    + vm_compute. reflexivity.
    + apply Nat.leb_le. vm_compute. reflexivity.
Defined.

(** * More on the line filter *)

Section LineFilterFacts.
Variable U : py_runtime.

Lemma kept_length_snoc (out : list pystr) line :
  length (filter (λ l, l ≠ []) (out ++ [line])) =
  (length (filter (λ l, l ≠ []) out)
   + if decide (line = []) then 0 else 1)%nat.
Proof.
  rewrite filter_app, length_app, filter_cons.
  case_decide; case_decide; try done; cbn; lia.
Qed.

(** Each iteration counts its line once. *)
Lemma filter_step_count st raw :
  let st' := filter_step U st raw in
  total_lines st' = S (total_lines st)
  ∧ (removed_single_word st' + duplicate_count st' + removed_repeats st'
     + kept_count st'
     = removed_single_word st + duplicate_count st + removed_repeats st
       + kept_count st + if decide (strip raw = []) then 0 else 1)%nat.
Proof.
  intros st'. subst st'. unfold filter_step, kept_count.
  destruct (strip raw) as [|c l] eqn:Hline.
  { cbn [truthy negb]. rewrite decide_True by done.
    destruct (_ <=? _)%nat;
      cbn [total_lines removed_single_word duplicate_count removed_repeats
           outfile];
      rewrite ?kept_length_snoc, ?decide_True by done; split; lia. }
  rewrite decide_False by done. cbn [truthy negb].
  destruct (_ <=? 1)%nat; [cbn; split; lia|].
  destruct (_ && _); [cbn; split; lia|].
  case_bool_decide; [cbn; split; lia|].
  cbn [total_lines removed_single_word duplicate_count removed_repeats
       outfile].
  rewrite kept_length_snoc, decide_False by done. split; lia.
Qed.

Lemma blank_count_snoc lines raw :
  blank_count (lines ++ [raw]) =
  (blank_count lines + if decide (strip raw = []) then 1 else 0)%nat.
Proof.
  unfold blank_count. rewrite filter_app, length_app, filter_cons.
  case_decide; cbn; lia.
Qed.

Lemma filter_lines_count lines :
  let st := filter_lines U lines in
  total_lines st = length lines
  ∧ (total_lines st
     = blank_count lines + removed_single_word st + duplicate_count st
       + removed_repeats st + kept_count st)%nat.
Proof.
  induction lines as [|raw lines [IH1 IH2]] using rev_ind; [done|].
  rewrite filter_lines_snoc, blank_count_snoc, length_app.
  destruct (filter_step_count (filter_lines U lines) raw) as [H1 H2].
  cbn zeta in *. cbn [length]. split; [lia|].
  destruct (decide (strip raw = [])); lia.
Qed.

(** A run of blank lines. *)
Lemma blank_run st blanks :
  Forall (λ raw, strip raw = []) blanks →
  let st' := foldl (filter_step U) st blanks in
  outfile st'
  = outfile st
    ++ repeat [] (min (length blanks) (2 - consecutive_empty st))
  ∧ consecutive_empty st' = (consecutive_empty st + length blanks)%nat
  ∧ seen_lines st' = seen_lines st.
Proof.
  intros Hall. revert st.
  induction Hall as [|raw blanks Hraw Hblanks IH]; intros st.
  { cbn. by rewrite app_nil_r, Nat.add_0_r. }
  cbn [foldl]. destruct (IH (filter_step U st raw)) as (Ho & Hc & Hs).
  cbn zeta in *. rewrite Ho, Hc, Hs. clear Ho Hc Hs IH.
  unfold filter_step. rewrite Hraw. cbn [truthy negb].
  cbn [outfile consecutive_empty seen_lines length].
  split; [|split; [lia|done]].
  destruct (S (consecutive_empty st) <=? 2)%nat eqn:Hcap.
  - apply Nat.leb_le in Hcap. rewrite <- app_assoc. f_equal.
    replace (min (S (length blanks)) (2 - consecutive_empty st))
      with (S (min (length blanks) (2 - S (consecutive_empty st)))) by lia.
    done.
  - apply Nat.leb_gt in Hcap.
    replace (min (length blanks) (2 - S (consecutive_empty st))) with 0%nat
      by lia.
    replace (min (S (length blanks)) (2 - consecutive_empty st)) with 0%nat
      by lia.
    done.
Qed.

(** The lines written are trimmed input lines, in the order of the
    input. *)
Lemma written_sublist lines :
  outfile (filter_lines U lines) `sublist_of` map strip lines.
Proof.
  induction lines as [|raw lines IH] using rev_ind; [done|].
  rewrite filter_lines_snoc, map_app. cbn [map].
  destruct (filter_step_cases U (filter_lines U lines) raw)
    as [(Hl & _ & [->| ->])|[(_ & _ & ->)|(_ & _ & ->)]].
  - by apply sublist_inserts_r.
  - rewrite <- Hl. by apply sublist_app.
  - by apply sublist_inserts_r.
  - cbn [after_kept outfile]. by apply sublist_app.
Qed.

Lemma strip_chars raw c : c ∈ strip raw → c ∈ raw.
Proof.
  unfold strip. intros Hc.
  destruct (rstrip_prefix (lstrip raw)) as [b Hb].
  destruct (lstrip_suffix raw) as [a Ha].
  rewrite Ha, Hb, !elem_of_app. tauto.
Qed.

Lemma output_text_chars input c :
  c ∈ output_text (process_lines_streaming U input) → c = LF ∨ c ∈ input.
Proof.
  unfold output_text. intros (w & Hw & Hc)%elem_of_concat.
  apply list_elem_of_fmap in Hw as (l & -> & Hl).
  apply elem_of_app in Hc as [Hc|Hc%list_elem_of_singleton]; [|by left].
  right. unfold process_lines_streaming in Hl.
  pose proof (elem_of_sublist _ _ _ Hl (written_sublist (file_lines input)))
    as Hin. clear Hl. rename Hin into Hl.
  apply list_elem_of_fmap in Hl as (raw & -> & Hraw).
  apply strip_chars in Hc. rewrite <- (file_lines_concat input).
  apply elem_of_concat. by exists raw.
Qed.

End LineFilterFacts.

(** * The whole run *)

Lemma universal_newlines_chars s c :
  c ∈ universal_newlines s → c = LF ∨ c ∈ s.
Proof.
  induction s as [|x rest IH]; intros Hc; [inversion Hc|].
  cbn [universal_newlines] in Hc. destruct (x =? CR).
  - destruct rest as [|d rest'].
    + apply list_elem_of_singleton in Hc. by left.
    + destruct (d =? LF).
      * destruct (IH Hc) as [?|?]; [by left|right; by right].
      * apply elem_of_cons in Hc as [->|Hc]; [by left|].
        destruct (IH Hc) as [?|?]; [by left|right; by right].
  - apply elem_of_cons in Hc as [->|Hc]; [right; left|].
    destruct (IH Hc) as [?|?]; [by left|right; by right].
Qed.

Lemma universal_newlines_nil s : universal_newlines s = [] ↔ s = [].
Proof.
  split; [|by intros ->]. induction s as [|x rest IH]; [done|].
  cbn [universal_newlines]. destruct (x =? CR); [|done].
  destruct rest as [|d rest']; [done|]. destruct (d =? LF); [|done].
  intros H. by apply IH in H.
Qed.

(** Text without carriage returns is read back as it was written. *)
Lemma universal_newlines_fixed s : CR ∉ s → universal_newlines s = s.
Proof.
  induction s as [|x rest IH]; intros H; [done|].
  apply not_elem_of_cons in H as [Hx Hrest]. cbn [universal_newlines].
  destruct (N.eqb_spec x CR); [done|]. by rewrite IH.
Qed.

Lemma progress_bar_bar_length current total bar_length :
  (0 < total)%Z → (0 ≤ current ≤ total)%Z → (0 ≤ bar_length)%Z →
  ∃ bar, progress_bar_bar current total bar_length = Some bar
         ∧ length bar = Z.to_nat bar_length.
Proof.
  intros Ht Hc Hb. unfold progress_bar_bar.
  destruct (Z.eqb_spec total 0); [lia|]. eexists. split; [reflexivity|].
  rewrite length_app, !repeat_length.
  assert (0 ≤ bar_length * current / total ≤ bar_length)%Z as Hf.
  { split; [apply Z.div_pos; nia|].
    apply Z.div_le_upper_bound; [lia|nia]. }
  lia.
Qed.

(** * Further properties of the script *)

(** X1: for a record container whose [body] is a list and whose [text]
    entries are all strings, the extractor returns these texts joined by
    line breaks, in the order of [body]; sub-records without [text] and
    items that are no sub-records are passed over. *)
Theorem X1_extract_texts_in_order (U : py_runtime) (content : pystr)
    (members : list (pystr * json)) (body : list json) :
  json_loads U content = Some (JObject members) →
  dict_get (str "body") members = Some (JArray body) →
  Forall text_is_string body →
  extract_text_from_json U (Some (Text content))
  = join [LF] (string_texts body).
Proof. apply extract_of_body. Qed.

Lemma X1_witness :
  json_loads ascii_runtime records_json = Some (JObject records_members)
  ∧ extract_text_from_json ascii_runtime (Some (Text records_json))
    = str "one" ++ [LF] ++ str "two".
Proof.
  assert (json_loads ascii_runtime records_json
          = Some (JObject records_members)) as H1
    by (vm_compute; reflexivity).
  assert (dict_get (str "body") records_members
          = Some (JArray records_body)) as H2
    by (vm_compute; reflexivity).
  assert (Forall text_is_string records_body) as H3
    by (repeat constructor).
  split; [exact H1|].
  exact (X1_extract_texts_in_order ascii_runtime _ _ _ H1 H2 H3).
Defined.

(** X2: the extractor returns a non-empty text only for a file that
    decodes and parses to a dictionary whose [body] is a list in which
    every [text] entry is a string.  In every other case (unreadable
    file, malformed JSON, no [body], a [text] that is a number) the
    result is the empty string, however many texts the file holds. *)
Theorem X2_extract_nonempty_shape (U : py_runtime)
    (file : option file_data) :
  extract_text_from_json U file ≠ [] →
  ∃ content members body,
    file = Some (Text content)
    ∧ json_loads U content = Some (JObject members)
    ∧ dict_get (str "body") members = Some (JArray body)
    ∧ Forall text_is_string body
    ∧ extract_text_from_json U file = join [LF] (string_texts body).
Proof. apply extract_nonempty_shape. Qed.

Lemma X2_witness :
  extract_text_from_json ascii_runtime (Some (Text records_json)) ≠ []
  ∧ ∃ content members body,
      Some (Text records_json) = Some (Text content)
      ∧ json_loads ascii_runtime content = Some (JObject members)
      ∧ dict_get (str "body") members = Some (JArray body)
      ∧ Forall text_is_string body
      ∧ extract_text_from_json ascii_runtime (Some (Text records_json))
        = join [LF] (string_texts body).
Proof.
  assert (extract_text_from_json ascii_runtime (Some (Text records_json))
          ≠ []) as H by (vm_compute; intros E; discriminate E).
  split; [exact H|].
  exact (X2_extract_nonempty_shape ascii_runtime _ H).
Defined.



(** X4: the combiner only ever removes files it was given.  After any
    run the disk is a part of the disk before, every file counted as
    deleted is one that is gone (files left plus files counted make up
    the files before), at most one file is counted per list entry, and
    a path that is not in the list is as it was. *)
Theorem X4_combiner_accounting (U : py_runtime) (files : list pystr)
    (fs : gmap pystr file_data) :
  let st := combine_files_streaming U files fs in
  disk st ⊆ fs
  ∧ (size (disk st) + deleted_count st = size fs)%nat
  ∧ (deleted_count st ≤ length files)%nat
  ∧ ∀ p, p ∉ files → disk st !! p = fs !! p.
Proof.
  destruct (combine_fold_accounting U files
              {| disk := fs; combined := []; deleted_count := 0;
                 total_bytes := 0 |}) as (H1 & H2 & H3 & H4).
  cbn in *. unfold combine_files_streaming.
  repeat split; try done. lia.
Qed.

Lemma X4_witness :
  (str "c.txt" ∉ [str "a.txt"; str "b.json"])
  ∧ disk (combine_files_streaming ascii_runtime
            [str "a.txt"; str "b.json"] mixed_disk) !! str "c.txt"
    = mixed_disk !! str "c.txt".
Proof.
  assert (str "c.txt" ∉ [str "a.txt"; str "b.json"]) as H.
  { intros [E|[E|E]%elem_of_cons]%elem_of_cons;
      [vm_compute in E; discriminate E|vm_compute in E; discriminate E|
       inversion E]. }
  split; [exact H|].
  exact (proj2 (proj2 (proj2
           (X4_combiner_accounting ascii_runtime _ mixed_disk))) _ H).
Defined.

(** X5: a plain-text source that cannot be opened or decoded is still on
    disk, unchanged, at the end of the run, wherever and however often
    it is listed, and the count of deleted files does not include it. *)
Theorem X5_failed_text_source_kept (U : py_runtime) (files : list pystr)
    (fs : gmap pystr file_data) (path : pystr) :
  is_json_path U path = false →
  (fs !! path = Some Unreadable
   ∨ ∃ delivered, fs !! path = Some (Undecodable delivered)) →
  let st := combine_files_streaming U files fs in
  disk st !! path = fs !! path
  ∧ (deleted_count st ≤ length (filter (λ p, p ≠ path) files))%nat.
Proof.
  intros Hjson Hfile. unfold combine_files_streaming.
  by apply (combine_fold_failing U files
              {| disk := fs; combined := []; deleted_count := 0;
                 total_bytes := 0 |} path).
Qed.

Lemma X5_witness :
  is_json_path ascii_runtime (str "c.txt") = false
  ∧ disk (combine_files_streaming ascii_runtime
            [str "a.txt"; str "b.json"; str "c.txt"] mixed_disk)
    !! str "c.txt" = mixed_disk !! str "c.txt".
Proof.
  assert (is_json_path ascii_runtime (str "c.txt") = false) as H1
    by (vm_compute; reflexivity).
  assert (mixed_disk !! str "c.txt" = Some Unreadable
          ∨ ∃ delivered,
              mixed_disk !! str "c.txt" = Some (Undecodable delivered))
    as H2 by (left; vm_compute; reflexivity).
  split; [exact H1|].
  exact (proj1 (X5_failed_text_source_kept ascii_runtime
                  [str "a.txt"; str "b.json"; str "c.txt"] _ _ H1 H2)).
Defined.

(** X20: a directory that is listed because of its name (the search
    matches names, whatever is behind them) is neither removed nor
    counted, however often it is listed: for a text name [open]
    raises, for a JSON name nothing is extracted and [unlink] raises.
    A run over that path alone leaves everything as a run over no file
    at all. *)
Theorem X20_directory_kept (U : py_runtime) (files : list pystr)
    (fs : gmap pystr file_data) (path : pystr) :
  fs !! path = Some Directory →
  let st := combine_files_streaming U files fs in
  disk st !! path = Some Directory
  ∧ (deleted_count st ≤ length (filter (λ p, p ≠ path) files))%nat
  ∧ combine_files_streaming U [path] fs = combine_files_streaming U [] fs.
Proof.
  intros Hfile. unfold combine_files_streaming.
  destruct (combine_fold_directory U files
              {| disk := fs; combined := []; deleted_count := 0;
                 total_bytes := 0 |} path Hfile) as [Hd Hc].
  split; [exact Hd|]. split; [exact Hc|].
  cbn [foldl]. by apply combine_step_directory.
Qed.

Lemma X20_witness :
  let files := [str "poems.json"; str "a.txt"] in
  let st := combine_files_streaming ascii_runtime files directory_disk in
  directory_disk !! str "poems.json" = Some Directory
  ∧ disk st !! str "poems.json" = Some Directory
  ∧ (deleted_count st ≤ 1)%nat.
Proof.
  intros files st.
  assert (directory_disk !! str "poems.json" = Some Directory) as H
    by (vm_compute; reflexivity).
  destruct (X20_directory_kept ascii_runtime files directory_disk _ H)
    as (Hd & Hc & _).
  split; [exact H|]. split; [exact Hd|].
  assert (length (filter (λ p, p ≠ str "poems.json") files) = 1%nat) as E
    by (vm_compute; reflexivity).
  rewrite <- E. exact Hc.
Defined.

(** X6: the combined stream can always be encoded as UTF-8, and its
    length in bytes is [total_bytes] plus the number of line breaks the
    combiner appended of its own, which [total_bytes] does not count:
    one for every iteration that reaches [outfile.write('\n')], so at
    most one per listed file.  When no path is listed twice and every
    source can be read and encoded, that number is the number of
    sources for which something is written (every text file, and every
    JSON file with a text that is not empty). *)
Theorem X6_total_bytes (U : py_runtime) (files : list pystr)
    (fs : gmap pystr file_data) :
  let st := combine_files_streaming U files fs in
  utf8_len (combined st)
  = Some (total_bytes st + appended_breaks U files fs)%nat
  ∧ (appended_breaks U files fs ≤ length files)%nat
  ∧ (NoDup files → Forall (source_ok U fs) files →
     appended_breaks U files fs
     = length (filter (λ p, source_text U fs p ≠ []) files)).
Proof.
  unfold combine_files_streaming, appended_breaks. split; [|split].
  - by apply (combine_fold_breaks U files _ 0%nat).
  - apply breaks_from_bound.
  - intros Hnd Hall.
    by apply (breaks_from_ok U files
                {| disk := fs; combined := []; deleted_count := 0;
                   total_bytes := 0 |} Hnd).
Qed.

Lemma X6_witness :
  let files := [str "a.txt"; str "b.json"] in
  let st := combine_files_streaming ascii_runtime files scenario_disk in
  NoDup files
  ∧ utf8_len (combined st) = Some (total_bytes st + 2)%nat
  ∧ appended_breaks ascii_runtime files scenario_disk
    = length (filter (λ p, source_text ascii_runtime scenario_disk p ≠ [])
                     files).
Proof.
  intros files st.
  assert (NoDup files) as H1.
  { repeat constructor.
    - intros H%list_elem_of_singleton. vm_compute in H. discriminate H.
    - intros H. inversion H. }
  assert (Forall (source_ok ascii_runtime scenario_disk) files) as H2.
  { apply Forall_cons. split; [|apply Forall_cons; split; [|constructor]].
    - exists (nl "hello world"). split; [vm_compute; reflexivity|].
      eexists. vm_compute. reflexivity.
    - exists scenario_json. split; [vm_compute; reflexivity|].
      eexists. vm_compute. reflexivity. }
  assert (appended_breaks ascii_runtime files scenario_disk = 2%nat) as H3
    by (vm_compute; reflexivity).
  split; [exact H1|]. split.
  - rewrite <- H3.
    exact (proj1 (X6_total_bytes ascii_runtime files scenario_disk)).
  - exact (proj2 (proj2 (X6_total_bytes ascii_runtime files scenario_disk))
             H1 H2).
Defined.

(** X7: the two counters the sanitizer returns are the length of its
    input and the length of its output, and the output is never longer
    than the input. *)
Theorem X7_sanitizer_counters (U : py_runtime) (input : pystr) :
  let r := clean_text_streaming U input in
  original_chars r = length input
  ∧ cleaned_chars r = length (cleaned_file r)
  ∧ (cleaned_chars r ≤ original_chars r)%nat.
Proof.
  unfold clean_text_streaming, clean_text_streaming_with.
  destruct (clean_fold_counters U
              {| cleaned_file := []; original_chars := 0;
                 cleaned_chars := 0 |} (file_chunks chunk_size input))
    as [H1 H2].
  cbn zeta in *. cbn [original_chars cleaned_chars] in H1, H2.
  rewrite file_chunks_concat in H1 by apply chunk_size_pos.
  rewrite H1, H2, clean_fold_file. cbn [cleaned_file app].
  split; [done|]. split; [done|].
  pose proof (concat_le (clean_chunk U) (file_chunks chunk_size input)
                (clean_chunk_length U)) as Hle.
  rewrite file_chunks_concat in Hle by apply chunk_size_pos. lia.
Qed.

(** X8: the sanitizer keeps every line break and adds none: its output
    has as many line breaks as its input. *)
Theorem X8_line_breaks_preserved (U : py_runtime) (input : pystr) :
  line_breaks (cleaned_file (clean_text_streaming U input))
  = line_breaks input.
Proof.
  unfold clean_text_streaming. rewrite cleaned_file_chunks.
  rewrite (concat_breaks (clean_chunk U)) by apply clean_chunk_breaks.
  by rewrite file_chunks_concat by apply chunk_size_pos.
Qed.

(** X9: sanitizing a second time changes nothing, provided the input
    fits in one chunk and the first result does not contain the word
    [gutenberg] (which deleting characters can bring about). *)
Theorem X9_sanitizer_idempotent (U : py_runtime) (input : pystr) :
  (length input ≤ chunk_size)%nat →
  let out := cleaned_file (clean_text_streaming U input) in
  contains (str "gutenberg") out = false →
  cleaned_file (clean_text_streaming U out) = out.
Proof.
  intros Hlen out Hfree. subst out.
  pose proof (cleaned_file_short U input Hlen) as X.
  assert (length (cleaned_file (clean_text_streaming U input))
          ≤ chunk_size)%nat as Hlen'.
  { rewrite X. destruct input; [apply Nat.le_0_l|].
    pose proof (clean_chunk_length U (n :: input)). lia. }
  rewrite (cleaned_file_short U _ Hlen').
  destruct (cleaned_file (clean_text_streaming U input)) eqn:E; [done|].
  rewrite <- E in *. rewrite X in *. destruct input; [done|].
  by apply clean_chunk_fixed.
Qed.

Lemma X9_witness :
  let input := nl "The the cat  sat on 2 mats." in
  (length input ≤ chunk_size)%nat
  ∧ cleaned_file
      (clean_text_streaming ascii_runtime
         (cleaned_file (clean_text_streaming ascii_runtime input)))
    = cleaned_file (clean_text_streaming ascii_runtime input).
Proof.
  intros input.
  assert (length input ≤ chunk_size)%nat as H1.
  { apply Nat.leb_le. vm_compute. reflexivity. }
  assert (contains (str "gutenberg")
            (cleaned_file (clean_text_streaming ascii_runtime input))
          = false) as H2 by (vm_compute; reflexivity).
  split; [exact H1|].
  exact (X9_sanitizer_idempotent ascii_runtime input H1 H2).
Defined.

(** X10: the metadata step compares case-sensitively: a chunk in which
    the lower-case word [gutenberg] does not occur passes unchanged, so
    [Gutenberg] and [GUTENBERG] are not removed. *)
Theorem X10_metadata_case_sensitive (U : py_runtime) (chunk : pystr) :
  contains (str "gutenberg") chunk = false →
  remove_metadata U chunk = chunk.
Proof. apply remove_metadata_absent. Qed.

Lemma X10_witness :
  contains (str "gutenberg") (str "Project Gutenberg, GUTENBERG") = false
  ∧ remove_metadata ascii_runtime (str "Project Gutenberg, GUTENBERG")
    = str "Project Gutenberg, GUTENBERG".
Proof.
  assert (contains (str "gutenberg") (str "Project Gutenberg, GUTENBERG")
          = false) as H by (vm_compute; reflexivity).
  split; [exact H|].
  exact (X10_metadata_case_sensitive ascii_runtime _ H).
Defined.

Lemma clean_counters (U : py_runtime) (input : pystr) :
  original_chars (clean_text_streaming U input) = length input
  ∧ cleaned_chars (clean_text_streaming U input)
    = length (cleaned_file (clean_text_streaming U input)).
Proof.
  unfold clean_text_streaming, clean_text_streaming_with.
  destruct (clean_fold_counters U
              {| cleaned_file := []; original_chars := 0;
                 cleaned_chars := 0 |} (file_chunks chunk_size input))
    as [H1 H2].
  cbn zeta in *. cbn [original_chars cleaned_chars] in H1, H2.
  rewrite file_chunks_concat in H1 by apply chunk_size_pos.
  by rewrite H1, H2, clean_fold_file.
Qed.

Lemma spaces_between_split p a b :
  spaces_between p (a ++ SP :: b) = true →
  match last a with
  | Some x => is_space x = false
  | None => p = true
  end
  ∧ ∃ y b', b = y :: b' ∧ is_space y = false.
Proof.
  revert p. induction a as [|c a IH]; intros p H.
  - cbn [app spaces_between] in H. rewrite N.eqb_refl in H.
    apply andb_prop in H as [[Hp Hnext]%andb_prop _].
    split; [done|]. destruct b as [|y b']; [done|].
    exists y, b'. split; [done|]. by apply negb_true_iff.
  - cbn [app spaces_between] in H.
    assert (∃ q, spaces_between q (a ++ SP :: b) = true
                 ∧ (q = true → is_space c = false)) as (q & Hq & Hc).
    { destruct (c =? SP).
      - apply andb_prop in H as [_ H]. by exists false.
      - exists (negb (is_space c)). split; [done|]. apply negb_true_iff. }
    destruct (IH q Hq) as [Hlast Hnext]. split; [|exact Hnext].
    destruct a as [|d a']; [by apply Hc|].
    change (last (c :: d :: a')) with (last (d :: a')).
    destruct (last (d :: a')) eqn:E; [exact Hlast|].
    by apply last_None in E.
Qed.

(** X11: in the sanitized output every space stands between two
    characters that are not whitespace: no line begins or ends with a
    space and no two spaces follow each other, across chunk boundaries
    too. *)
Theorem X11_single_spaces (U : py_runtime) (input a b : pystr) :
  cleaned_file (clean_text_streaming U input) = a ++ SP :: b →
  ∃ a' x y b', a = a' ++ [x] ∧ b = y :: b'
               ∧ is_space x = false ∧ is_space y = false.
Proof.
  intros Hout.
  assert (spaces_between false (cleaned_file (clean_text_streaming U input))
          = true) as H.
  { unfold clean_text_streaming. rewrite cleaned_file_chunks.
    apply concat_spaces, Forall_map, Forall_forall. intros c _.
    apply clean_chunk_spaces. }
  rewrite Hout in H. apply spaces_between_split in H as [Hlast Hnext].
  destruct Hnext as (y & b' & -> & Hy).
  destruct (last a) as [x|] eqn:E; [|done].
  apply last_Some in E as [a' ->]. by exists a', x, y, b'.
Qed.

Lemma X11_witness :
  cleaned_file (clean_text_streaming ascii_runtime (str "  a   b  "))
  = [97] ++ SP :: [98]
  ∧ ∃ a' x y b', [97] = a' ++ [x] ∧ [98] = y :: b'
                 ∧ is_space x = false ∧ is_space y = false.
Proof.
  assert (cleaned_file (clean_text_streaming ascii_runtime (str "  a   b  "))
          = [97] ++ SP :: [98]) as H by (vm_compute; reflexivity).
  split; [exact H|].
  exact (X11_single_spaces ascii_runtime _ _ _ H).
Defined.

(** X12: the line filter accounts for every line it reads exactly once:
    [total_lines] is the number of lines of the input, and it is the sum
    of the blank lines, the single-word drops, the duplicate drops, the
    spam-repetition drops and the non-empty lines written. *)
Theorem X12_every_line_counted (U : py_runtime) (input : pystr) :
  let st := process_lines_streaming U input in
  total_lines st = length (file_lines input)
  ∧ (total_lines st
     = blank_count (file_lines input) + removed_single_word st
       + duplicate_count st + removed_repeats st + kept_count st)%nat.
Proof. apply filter_lines_count. Qed.

(** X13: of a run of consecutive blank lines the filter writes the first
    ones until the counter [consecutive_empty] stands at 2 and none
    after that: starting from a counter of 0, two at most.  The run
    leaves the set of kept lines alone. *)
Theorem X13_blank_run_capped (U : py_runtime) (st : filter_state)
    (blanks : list pystr) :
  Forall (λ raw, strip raw = []) blanks →
  let st' := foldl (filter_step U) st blanks in
  outfile st'
  = outfile st ++ repeat [] (min (length blanks) (2 - consecutive_empty st))
  ∧ consecutive_empty st' = (consecutive_empty st + length blanks)%nat
  ∧ seen_lines st' = seen_lines st.
Proof. apply blank_run. Qed.

Lemma X13_witness :
  let blanks := [nl ""; nl "  "; nl ""; str " "] in
  Forall (λ raw, strip raw = []) blanks
  ∧ outfile (foldl (filter_step ascii_runtime) filter_init blanks)
    = [[]; []].
Proof.
  intros blanks.
  assert (Forall (λ raw, strip raw = []) blanks) as H
    by (repeat constructor).
  split; [exact H|].
  exact (proj1 (X13_blank_run_capped ascii_runtime filter_init blanks H)).
Defined.

(** X14: the filter neither reorders nor invents lines: the lines it
    writes are, in this order, trimmed lines of its input. *)
Theorem X14_output_in_input_order (U : py_runtime) (input : pystr) :
  outfile (process_lines_streaming U input)
    `sublist_of` map strip (file_lines input).
Proof. apply written_sublist. Qed.

(** X15: unless the folder exists, is a directory, holds at least one
    file and the answer is [y] or [Y], the run is refused: it returns
    [False], writes nothing and leaves every source on disk. *)
Theorem X15_confirmation_gate (U : py_runtime)
    (folder_exists folder_is_dir : bool) (all_files : list pystr)
    (response : pystr) (fs : gmap pystr file_data) :
  ¬ (folder_exists = true ∧ folder_is_dir = true ∧ all_files ≠ []
     ∧ lower U response = str "y") →
  combine_and_clean_files U folder_exists folder_is_dir all_files
                          response fs
  = run_refused fs.
Proof.
  intros Hgate. unfold combine_and_clean_files.
  destruct folder_exists; [|done]. destruct folder_is_dir; [|done].
  cbn [negb]. case_bool_decide as Hfiles; [done|].
  unfold pystr_eqb. case_bool_decide as Hresp; [|done].
  contradict Hgate. done.
Qed.

Lemma X15_witness :
  ¬ (true = true ∧ true = true ∧ [str "a.txt"; str "b.json"] ≠ []
     ∧ lower ascii_runtime (str "yes") = str "y")
  ∧ sources (combine_and_clean_files ascii_runtime true true
               [str "a.txt"; str "b.json"] (str "yes") scenario_disk)
    = scenario_disk.
Proof.
  assert (¬ (true = true ∧ true = true ∧ [str "a.txt"; str "b.json"] ≠ []
             ∧ lower ascii_runtime (str "yes") = str "y")) as H.
  { intros (_ & _ & _ & E). vm_compute in E. discriminate E. }
  split; [exact H|].
  exact (f_equal sources
           (X15_confirmation_gate ascii_runtime true true _ _
              scenario_disk H)).
Defined.

(** X16: a confirmed run succeeds exactly when the combined stream is
    not empty.  If it is empty (no source gave any text), the script
    fails on the division by [original_chars]: it returns [False]
    without having opened the output file and leaves both temporary
    files behind, while the sources the combiner removed stay removed.
    If it is not empty, the run returns [True], the temporary files are
    gone and the output is the combined stream passed through the
    sanitizer and the line filter. *)
Theorem X16_empty_stream_fails (U : py_runtime) (all_files : list pystr)
    (response : pystr) (fs : gmap pystr file_data) :
  all_files ≠ [] → lower U response = str "y" →
  let st := combine_files_streaming U all_files fs in
  let r := combine_and_clean_files U true true all_files response fs in
  sources r = disk st
  ∧ (combined st = [] →
     success r = false ∧ output_file r = None ∧ temp_files r = [[]; []])
  ∧ (combined st ≠ [] →
     success r = true ∧ temp_files r = []
     ∧ output_file r
       = Some (output_text
                 (process_lines_streaming U
                    (universal_newlines
                       (cleaned_file
                          (clean_text_streaming U
                             (universal_newlines (combined st)))))))).
Proof.
  intros Hfiles Hresp st r. subst r. unfold combine_and_clean_files.
  cbn [negb]. rewrite bool_decide_eq_false_2 by done.
  unfold pystr_eqb. rewrite bool_decide_eq_true_2 by done. cbn [negb].
  fold st.
  destruct (clean_counters U (universal_newlines (combined st)))
    as [Horig _].
  rewrite Horig.
  destruct (combined st) as [|c rest] eqn:Hc.
  - cbn [universal_newlines length Nat.eqb sources success output_file
         temp_files clean_text_streaming].
    split; [done|]. split; [done|]. by intros [].
  - destruct (universal_newlines (c :: rest)) as [|d out] eqn:Hu.
    { apply (proj1 (universal_newlines_nil _)) in Hu. discriminate Hu. }
    cbn [length Nat.eqb sources success output_file temp_files].
    split; [done|]. split; [done|]. intros _. by rewrite <- Hu.
Qed.

Lemma X16_witness :
  [str "empty.json"] ≠ [] ∧ lower ascii_runtime (str "Y") = str "y"
  ∧ success (combine_and_clean_files ascii_runtime true true
               [str "empty.json"] (str "Y") no_text_disk) = false
  ∧ sources (combine_and_clean_files ascii_runtime true true
               [str "empty.json"] (str "Y") no_text_disk) = ∅.
Proof.
  assert ([str "empty.json"] ≠ []) as H1 by done.
  assert (lower ascii_runtime (str "Y") = str "y") as H2
    by (vm_compute; reflexivity).
  assert (combined (combine_files_streaming ascii_runtime
                      [str "empty.json"] no_text_disk) = []) as H3
    by (vm_compute; reflexivity).
  split; [exact H1|]. split; [exact H2|].
  pose proof (X16_empty_stream_fails ascii_runtime _ _ no_text_disk H1 H2)
    as (Hs & Hempty & _).
  split; [exact (proj1 (Hempty H3))|].
  rewrite Hs. vm_compute. reflexivity.
Defined.

(** X17: whatever the sources hold, the file a successful run writes
    contains only the letters a-z and A-Z, spaces, line breaks and
    [. , ! ?]; each of its lines is empty or has at least two words, and
    no non-empty line occurs twice. *)
Theorem X17_final_output (U : py_runtime)
    (folder_exists folder_is_dir : bool) (all_files : list pystr)
    (response : pystr) (fs : gmap pystr file_data) (out : pystr) :
  output_file (combine_and_clean_files U folder_exists folder_is_dir
                 all_files response fs) = Some out →
  (∀ c, c ∈ out → in_clean_alphabet c = true)
  ∧ (∀ l, l ∈ split_on LF out → l = [] ∨ (2 ≤ length (split l))%nat)
  ∧ NoDup (filter (λ l, l ≠ []) (split_on LF out)).
Proof.
  unfold combine_and_clean_files.
  destruct (negb folder_exists); [done|].
  destruct (negb folder_is_dir); [done|].
  case_bool_decide; [done|]. destruct (negb _); [done|].
  destruct (_ =? _)%nat; [done|].
  cbn [output_file]. intros [= <-].
  set (cleaned := cleaned_file _).
  pose proof (filter_lines_inv U (file_lines (universal_newlines cleaned)))
    as [Hw Hs Hn].
  fold (process_lines_streaming U (universal_newlines cleaned)) in Hw, Hs, Hn.
  rewrite output_text_lines. split; [|split].
  - intros c [->|Hc]%output_text_chars; [done|].
    apply universal_newlines_chars in Hc as [->|Hc]; [done|].
    by apply cleaned_file_alphabet in Hc as [Hc _].
  - intros l [Hl|Hl%list_elem_of_singleton]%elem_of_app; [|by left].
    destruct (Hw l Hl) as [?|Hr]; [by left|right].
    by apply reaches_dedup_words in Hr.
  - rewrite filter_app. cbn. by rewrite app_nil_r.
Qed.

Lemma X17_witness :
  output_file (combine_and_clean_files ascii_runtime true true
                 [str "a.txt"; str "b.json"] (str "y") scenario_disk)
  = Some (nl "hello world" ++ [LF] ++ nl "foo bar")
  ∧ ∀ c, c ∈ nl "hello world" ++ [LF] ++ nl "foo bar" →
         in_clean_alphabet c = true.
Proof.
  assert (output_file (combine_and_clean_files ascii_runtime true true
                         [str "a.txt"; str "b.json"] (str "y")
                         scenario_disk)
          = Some (nl "hello world" ++ [LF] ++ nl "foo bar")) as H
    by (vm_compute; reflexivity).
  split; [exact H|].
  exact (proj1 (X17_final_output ascii_runtime _ _ _ _ _ _ H)).
Defined.

(** X18: for a total that is not zero and a progress between 0 and the
    total, the bar of the progress display has exactly [bar_length]
    cells, whatever the share that is filled. *)
Theorem X18_progress_bar_length (current total bar_length : Z) :
  (0 < total)%Z → (0 ≤ current ≤ total)%Z → (0 ≤ bar_length)%Z →
  ∃ bar, progress_bar_bar current total bar_length = Some bar
         ∧ length bar = Z.to_nat bar_length.
Proof. apply progress_bar_bar_length. Qed.

Lemma X18_witness :
  (0 < 3)%Z ∧ (0 ≤ 1 ≤ 3)%Z ∧ (0 ≤ 50)%Z
  ∧ ∃ bar, progress_bar_bar 1 3 50 = Some bar
           ∧ length bar = Z.to_nat 50.
Proof.
  assert (0 < 3)%Z as H1 by lia.
  assert (0 ≤ 1 ≤ 3)%Z as H2 by lia.
  assert (0 ≤ 50)%Z as H3 by lia.
  split; [exact H1|]. split; [exact H2|]. split; [exact H3|].
  exact (X18_progress_bar_length 1 3 50 H1 H2 H3).
Defined.

